(** * r2sync: reconciliation engine of the Obsidian / Cloudflare R2 plugin

    A shallow embedding of the parts of the plugin that the specification
    talks about:

    - [SyncManager.getFileKey] / [SyncManager.getLocalPathFromKey]
      (the path/key mapping),
    - [SyncManager.syncFile], [syncAllFiles], [syncMissingFiles],
      [downloadRemoteChanges], [downloadAndSync],
    - [R2ServiceObsidian.createBackup], [listBackups], [deleteBackup],
      [cleanupOldBackups],
    - [R2SyncPlugin.debouncedSync].

    JavaScript strings are modelled as [string], the sequence of their
    units; [startsWith], [endsWith], [===] and the [substring] that cuts a
    prefix just tested only compare and cut such sequences, whatever the
    units are.  Where a string meets the bytes of an object (the body of an
    upload, what a download decodes) the units are the bytes of its UTF-8
    encoding, which is what [TextEncoder] writes and [TextDecoder] reads. *)

From Stdlib Require Import String Ascii List ZArith Bool Arith Lia.
Set Warnings "-register-all".
Import ListNotations.
Open Scope string_scope.

(* ================================================================== *)
(** ** JavaScript string primitives used by the source *)

Module JS.

(** [s.startsWith(p)] *)
Fixpoint startsWith (s p : string) {struct p} : bool :=
  match p with
  | EmptyString => true
  | String c p' =>
      match s with
      | EmptyString => false
      | String d s' => if Ascii.eqb d c then startsWith s' p' else false
      end
  end.

(** [s.substring(n)]: the code units from index [n] on (empty when [n]
    is past the end). *)
Fixpoint substring (s : string) (n : nat) {struct n} : string :=
  match n with
  | O => s
  | S n' => match s with
            | EmptyString => EmptyString
            | String _ s' => substring s' n'
            end
  end.

(** [s.endsWith(suffix)]: [s.substring(s.length - suffix.length)] is
    [suffix] (and [s] is long enough). *)
Definition endsWith (s suffix : string) : bool :=
  (String.length suffix <=? String.length s)%nat
  && String.eqb (substring s (String.length s - String.length suffix)) suffix.

(** Truthiness of a string: every string but the empty one. *)
Definition truthy (s : string) : bool :=
  match s with EmptyString => false | _ => true end.

(** [a || b] on strings. *)
Definition or (a b : string) : string := if truthy a then a else b.

(** [s.split('/')]: the pieces between the separators; the empty string
    splits into one empty piece. *)
Fixpoint split (sep : ascii) (s : string) : list string :=
  match s with
  | EmptyString => [EmptyString]
  | String c s' =>
      if Ascii.eqb c sep then EmptyString :: split sep s'
      else match split sep s' with
           | h :: t => String c h :: t
           | [] => [String c EmptyString]
           end
  end.

(** [parts.join(sep)] *)
Fixpoint join (sep : string) (parts : list string) : string :=
  match parts with
  | [] => EmptyString
  | [x] => x
  | x :: rest => x ++ sep ++ join sep rest
  end.

(** [s.toLowerCase()] on the ASCII letters. *)
Definition lower (c : ascii) : ascii :=
  let n := nat_of_ascii c in
  if ((65 <=? n) && (n <=? 90))%nat then ascii_of_nat (n + 32) else c.

Fixpoint toLowerCase (s : string) : string :=
  match s with
  | EmptyString => EmptyString
  | String c s' => String (lower c) (toLowerCase s')
  end.

(** [s.replace(/[:.]/g, '-')] *)
Fixpoint replaceColonDot (s : string) : string :=
  match s with
  | EmptyString => EmptyString
  | String c s' =>
      String (if Ascii.eqb c ":" || Ascii.eqb c "." then "-"%char else c)
             (replaceColonDot s')
  end.

(** Membership of a string in a list ([Set.has], [Array.includes]). *)
Definition mem (x : string) (l : list string) : bool :=
  existsb (String.eqb x) l.

End JS.

(* ================================================================== *)
(** ** Obsidian's [TFile] *)

Record TFile := mkTFile {
  path : string;       (* vault-relative, '/' separated *)
  name : string;       (* base name *)
  extension : string
}.

(* ================================================================== *)
(** ** PathKeyMapper: [getFileKey] and [getLocalPathFromKey]

    Both read [this.app.vault.getName()] and [this.settings.baseFolder];
    they are the two leading arguments here. *)

Definition getFileKey (vaultName settingsBaseFolder : string) (file : TFile)
  : string :=
  let baseFolder := JS.or settingsBaseFolder vaultName in
  if JS.truthy baseFolder && JS.startsWith (path file) (baseFolder ++ "/") then
    JS.substring (path file) (String.length baseFolder + 1)
  else if JS.truthy baseFolder && String.eqb (path file) baseFolder then
    name file
  else if JS.truthy baseFolder then
    baseFolder ++ "/" ++ path file
  else
    path file.

Definition getLocalPathFromKey (vaultName settingsBaseFolder : string)
  (key : string) : string :=
  let baseFolder := JS.or settingsBaseFolder vaultName in
  if JS.startsWith key (baseFolder ++ "/") then
    JS.substring key (String.length baseFolder + 1)
  else if String.eqb key baseFolder then
    ""
  else
    key.

(* ================================================================== *)
(** ** The local file store (Obsidian's [Vault])

    Only what the engine calls: [getName], [configDir], [getFiles],
    [getAbstractFileByPath], [read], [readBinary], [modify], [create],
    [createFolder].  File contents are text; the UTF-8 codec between text
    and stored bytes is taken to be the identity, so [read] and
    [readBinary] return the same string.  [unreadable] lists the paths
    whose read is rejected (an I/O error, or a file removed while the pass
    is suspended). *)

Record Vault := mkVault {
  vaultName : string;
  configDir : string;
  files : list (TFile * string);     (* [getFiles()], with contents *)
  folders : list string;
  unreadable : list string
}.

Inductive TAbstractFile :=
| AFile (f : TFile)
| AFolder (p : string).

Fixpoint lookupFile (p : string) (l : list (TFile * string))
  : option (TFile * string) :=
  match l with
  | [] => None
  | (f, c) :: rest =>
      if String.eqb (path f) p then Some (f, c) else lookupFile p rest
  end.

Definition getAbstractFileByPath (v : Vault) (p : string)
  : option TAbstractFile :=
  match lookupFile p (files v) with
  | Some (f, _) => Some (AFile f)
  | None => if JS.mem p (folders v) then Some (AFolder p) else None
  end.

Definition getFiles (v : Vault) : list TFile := map fst (files v).

(** Base name and extension of a path, as Obsidian fills the fields of a
    [TFile] it creates. *)
Definition basename (p : string) : string :=
  last (JS.split "/" p) "".

Definition extname (p : string) : string :=
  match JS.split "." (basename p) with
  | [] | [_] => ""
  | parts => last parts ""
  end.

(** The folder part of a path: [pathParts.slice(0, -1).join('/')]. *)
Definition dirname (p : string) : string :=
  JS.join "/" (removelast (JS.split "/" p)).

(** All the folders above a path, outermost first: for [a/b/c] they are
    [a] and [a/b]. *)
Fixpoint prefixes (acc : string) (parts : list string) : list string :=
  match parts with
  | [] => []
  | [_] => []
  | x :: rest =>
      let here := if JS.truthy acc then acc ++ "/" ++ x else x in
      here :: prefixes here rest
  end.

Definition ancestors (p : string) : list string :=
  prefixes "" (JS.split "/" p).

Fixpoint replaceContent (p data : string) (l : list (TFile * string))
  : list (TFile * string) :=
  match l with
  | [] => []
  | (f, c) :: rest =>
      if String.eqb (path f) p then (f, data) :: rest
      else (f, c) :: replaceContent p data rest
  end.

Fixpoint addFolders (ps : list string) (fs : list string) : list string :=
  match ps with
  | [] => fs
  | p :: rest => addFolders rest (if JS.mem p fs then fs else fs ++ [p])
  end.

(* ================================================================== *)
(** ** The object store behind [R2ServiceObsidian]

    The bucket is a list of objects kept in key order, the order in which
    [ListObjectsV2] returns them.  A request can fail: [failPut],
    [failGet], [failDelete] list the keys, and [failList] the prefixes, for
    which the request is rejected. *)

Record R2Object := mkObject {
  body : string;
  contentType : string
}.

Record R2 := mkR2 {
  objects : list (string * R2Object);
  failPut : list string;
  failGet : list string;
  failList : list string;
  failDelete : list string
}.

Fixpoint putObject (k : string) (o : R2Object) (l : list (string * R2Object))
  : list (string * R2Object) :=
  match l with
  | [] => [(k, o)]
  | (k', o') :: rest =>
      match String.compare k k' with
      | Eq => (k, o) :: rest
      | Lt => (k, o) :: (k', o') :: rest
      | Gt => (k', o') :: putObject k o rest
      end
  end.

Fixpoint getObject (k : string) (l : list (string * R2Object))
  : option R2Object :=
  match l with
  | [] => None
  | (k', o) :: rest => if String.eqb k' k then Some o else getObject k rest
  end.

Definition removeObject (k : string) (l : list (string * R2Object))
  : list (string * R2Object) :=
  filter (fun ko => negb (String.eqb (fst ko) k)) l.

(** [ListObjectsV2] with a prefix: one page, at most 1000 keys. *)
Definition MaxKeys : nat := 1000.

Definition listObjects (prefix : string) (l : list (string * R2Object))
  : list string :=
  firstn MaxKeys
    (map fst (filter (fun ko => JS.startsWith (fst ko) prefix) l)).

(* ================================================================== *)
(** ** [TextDecoder]

    [new TextDecoder().decode(bytes)]: the UTF-8 decoder of the Encoding
    standard, fed the whole input at once.  A leading byte order mark is
    dropped; a byte that cannot start or continue a sequence ends the
    sequence in hand, which is replaced by U+FFFD, and is then read again
    as the start of a sequence; a sequence cut short by the end of the input
    is replaced by U+FFFD.  The string that results is given by the bytes of
    its UTF-8 encoding. *)

Module TextDecoder.

(** U+FFFD, the replacement character. *)
Definition replacement : string :=
  String (ascii_of_nat 239) (String (ascii_of_nat 191)
    (String (ascii_of_nat 189) EmptyString)).

(** Inside a sequence: the bytes still needed, the bounds of the next
    byte, the bytes read. *)
Record Pending := mkPending {
  needed : nat;
  lower : nat;
  upper : nat;
  seen : string
}.

(** The bounds of the byte that follows the lead byte [n]. *)
Definition lowerAfter (n : nat) : nat :=
  if (n =? 224)%nat then 160 else if (n =? 240)%nat then 144 else 128.

Definition upperAfter (n : nat) : nat :=
  if (n =? 237)%nat then 159 else if (n =? 244)%nat then 143 else 191.

Definition inRange (lo hi : nat) (c : ascii) : bool :=
  ((lo <=? nat_of_ascii c) && (nat_of_ascii c <=? hi))%nat.

Fixpoint decodeFrom (st : option Pending) (s : string) : string :=
  match s with
  | EmptyString =>
      match st with
      | Some _ => replacement
      | None => EmptyString
      end
  | String c rest =>
      let n := nat_of_ascii c in
      let '(failed, st') :=
        match st with
        | Some p =>
            if inRange (lower p) (upper p) c then (EmptyString, Some p)
            else (replacement, None)
        | None => (EmptyString, None)
        end in
      failed ++
      match st' with
      | Some p =>
          if (needed p =? 1)%nat then
            (seen p ++ String c EmptyString) ++ decodeFrom None rest
          else
            decodeFrom (Some (mkPending (needed p - 1) 128 191
                                (seen p ++ String c EmptyString))) rest
      | None =>
          if (n <? 128)%nat then String c (decodeFrom None rest)
          else if ((194 <=? n) && (n <=? 223))%nat then
            decodeFrom (Some (mkPending 1 128 191 (String c EmptyString))) rest
          else if ((224 <=? n) && (n <=? 239))%nat then
            decodeFrom (Some (mkPending 2 (lowerAfter n) (upperAfter n)
                                (String c EmptyString))) rest
          else if ((240 <=? n) && (n <=? 244))%nat then
            decodeFrom (Some (mkPending 3 (lowerAfter n) (upperAfter n)
                                (String c EmptyString))) rest
          else replacement ++ decodeFrom None rest
      end
  end.

(** The byte order mark, EF BB BF, at the head of the input. *)
Definition startsWithBOM (s : string) : bool :=
  match s with
  | String a (String b (String c _)) =>
      ((nat_of_ascii a =? 239) && (nat_of_ascii b =? 187)
       && (nat_of_ascii c =? 191))%nat
  | _ => false
  end.

Definition stripBOM (s : string) : string :=
  if startsWithBOM s then JS.substring s 3 else s.

Definition decode (bytes : string) : string :=
  decodeFrom None (stripBOM bytes).

End TextDecoder.

(* ================================================================== *)
(** ** [R2ServiceObsidian]: the four verbs

    Each method catches the errors of the request it sends and turns them
    into [false], [null] or an empty list. *)

Definition uploadFile (key content ctype : string) (r : R2) : bool * R2 :=
  if JS.mem key (failPut r) then (false, r)
  else (true, mkR2 (putObject key (mkObject content ctype) (objects r))
                   (failPut r) (failGet r) (failList r) (failDelete r)).

(** [downloadFile]: the bytes of the body go through
    [new TextDecoder().decode(...)]; [None] is JavaScript's [null] (request
    rejected, or no such key). *)
Definition downloadFile (key : string) (r : R2) : option string :=
  if JS.mem key (failGet r) then None
  else match getObject key (objects r) with
       | Some o => Some (TextDecoder.decode (body o))
       | None => None
       end.

Definition listFiles (prefix : string) (r : R2) : list string :=
  if JS.mem prefix (failList r) then [] else listObjects prefix (objects r).

Definition deleteFile (key : string) (r : R2) : bool * R2 :=
  if JS.mem key (failDelete r) then (false, r)
  else (true, mkR2 (removeObject key (objects r))
                   (failPut r) (failGet r) (failList r) (failDelete r)).

(* ================================================================== *)
(** ** [SyncManager]: state and the monad of its methods *)

Record R2SyncSettings := mkSettings {
  baseFolder : string;
  bidirectionalSync : bool;
  enableBackups : bool;
  backupRetentionDays : Z;
  lastSyncTime : string;
  settings_syncInProgress : bool       (* [settings.syncInProgress] *)
}.

(** The messages shown with [new Notice(...)]. *)
Inductive Notice :=
| NUploadFailed (key : string)
| NSynced (name : string)
| NSyncFailed (name : string)
| NSyncError (name : string)
| NBulkStart (total : nat)
| NBulkAll (total : nat)
| NBulkPartial (success total : nat)
| NBulkError
| NDownloaded (downloaded updated : nat)
| NDownloadError
| NMissingUploaded (n : nat)
| NMissingNone
| NMissingError
| NBackupCreated (folderPath : string)
| NBackupFailed (folderPath : string)
| NBackupError
| NCleaned (n : nat).

Record SyncManager := mkSyncManager {
  vault : Vault;                 (* [this.app.vault] *)
  r2Service : option R2;         (* [None]: no client was constructed *)
  settings : R2SyncSettings;
  syncInProgress : bool;
  notices : list Notice
}.

(** How a block ends: normally with a value, or by a thrown error. *)
Inductive Completion (A : Type) :=
| Normal (a : A)
| Abrupt (message : string).
Arguments Normal {A} a.
Arguments Abrupt {A} message.

Definition M (A : Type) : Type := SyncManager -> Completion A * SyncManager.

Definition ret {A} (a : A) : M A := fun s => (Normal a, s).

Definition bind {A B} (m : M A) (k : A -> M B) : M B :=
  fun s => match m s with
           | (Normal a, s') => k a s'
           | (Abrupt e, s') => (Abrupt e, s')
           end.

Definition throw {A} (e : string) : M A := fun s => (Abrupt e, s).

(** [try { body } catch (error) { handler }] *)
Definition try_catch {A} (body : M A) (handler : M A) : M A :=
  fun s => match body s with
           | (Normal a, s') => (Normal a, s')
           | (Abrupt _, s') => handler s'
           end.

(** [try { body } finally { fin }] *)
Definition try_finally {A} (body : M A) (fin : M unit) : M A :=
  fun s => match body s with
           | (c, s') => match fin s' with
                        | (Normal _, s'') => (c, s'')
                        | (Abrupt e, s'') => (Abrupt e, s'')
                        end
           end.

Declare Scope sync_scope.
Delimit Scope sync_scope with sync.
Notation "x <- m ;; k" := (bind m (fun x => k))
  (at level 61, m at next level, right associativity) : sync_scope.
Notation "m ;;; k" := (bind m (fun _ => k))
  (at level 61, right associativity) : sync_scope.
Open Scope sync_scope.

Definition gets {A} (f : SyncManager -> A) : M A := fun s => (Normal (f s), s).

Definition modify_state (f : SyncManager -> SyncManager) : M unit :=
  fun s => (Normal tt, f s).

Definition notice (n : Notice) : M unit :=
  modify_state (fun s => mkSyncManager (vault s) (r2Service s) (settings s)
                           (syncInProgress s) (notices s ++ [n])).

Definition set_vault (v : Vault) : M unit :=
  modify_state (fun s => mkSyncManager v (r2Service s) (settings s)
                           (syncInProgress s) (notices s)).

Definition set_r2 (r : R2) : M unit :=
  modify_state (fun s => mkSyncManager (vault s) (Some r) (settings s)
                           (syncInProgress s) (notices s)).

(** [this.syncInProgress = b; this.settings.syncInProgress = b] *)
Definition set_syncInProgress (b : bool) : M unit :=
  modify_state (fun s =>
    let st := settings s in
    mkSyncManager (vault s) (r2Service s)
      (mkSettings (baseFolder st) (bidirectionalSync st) (enableBackups st)
                  (backupRetentionDays st) (lastSyncTime st) b)
      b (notices s)).

(** [this.settings.lastSyncTime = new Date().toISOString()], the string
    being [now]. *)
Definition set_lastSyncTime (now : string) : M unit :=
  modify_state (fun s =>
    let st := settings s in
    mkSyncManager (vault s) (r2Service s)
      (mkSettings (baseFolder st) (bidirectionalSync st) (enableBackups st)
                  (backupRetentionDays st) now (settings_syncInProgress st))
      (syncInProgress s) (notices s)).

(** A call through [this.r2Service]; with no client the property access
    on [undefined] throws. *)
Definition with_r2 {A} (f : R2 -> M A) : M A :=
  fun s => match r2Service s with
           | Some r => f r s
           | None => (Abrupt "TypeError", s)
           end.

Definition r2_uploadFile (key content ctype : string) : M bool :=
  with_r2 (fun r =>
    let '(ok, r') := uploadFile key content ctype r in
    set_r2 r' ;;;
    (if ok then ret tt else notice (NUploadFailed key)) ;;;
    ret ok).

Definition r2_downloadFile (key : string) : M (option string) :=
  with_r2 (fun r => ret (downloadFile key r)).

Definition r2_listFiles (prefix : string) : M (list string) :=
  with_r2 (fun r => ret (listFiles prefix r)).

(** *** Vault calls *)

Definition vault_read (file : TFile) : M string :=
  fun s =>
    let v := vault s in
    if JS.mem (path file) (unreadable v) then (Abrupt "read failed", s)
    else match lookupFile (path file) (files v) with
         | Some (_, c) => (Normal c, s)
         | None => (Abrupt "ENOENT", s)
         end.

Definition vault_readBinary (file : TFile) : M string := vault_read file.

Definition vault_modify (file : TFile) (data : string) : M unit :=
  fun s =>
    let v := vault s in
    match lookupFile (path file) (files v) with
    | Some _ =>
        set_vault (mkVault (vaultName v) (configDir v)
                     (replaceContent (path file) data (files v))
                     (folders v) (unreadable v)) s
    | None => (Abrupt "ENOENT", s)
    end.

(** [vault.createFolder(path)]: refuses a path that exists; creates the
    folder with the folders above it. *)
Definition vault_createFolder (p : string) : M unit :=
  fun s =>
    let v := vault s in
    match getAbstractFileByPath v p with
    | Some _ => (Abrupt "Folder already exists.", s)
    | None =>
        set_vault (mkVault (vaultName v) (configDir v) (files v)
                     (addFolders (ancestors p ++ [p]) (folders v))
                     (unreadable v)) s
    end.

(** [vault.create(path, data)]: refuses a path that exists, and a path
    whose folder does not. *)
Definition vault_create (p data : string) : M unit :=
  fun s =>
    let v := vault s in
    match getAbstractFileByPath v p with
    | Some _ => (Abrupt "File already exists.", s)
    | None =>
        if JS.truthy (dirname p) && negb (JS.mem (dirname p) (folders v))
        then (Abrupt "ENOENT", s)
        else set_vault (mkVault (vaultName v) (configDir v)
                          (files v ++ [(mkTFile p (basename p) (extname p), data)])
                          (folders v) (unreadable v)) s
    end.

(** [for (const x of l) { ... }] threading the loop's local variables. *)
Fixpoint for_of {A S : Type} (l : list A) (acc : S) (step : A -> S -> M S)
  : M S :=
  match l with
  | [] => ret acc
  | x :: rest => acc' <- step x acc ;; for_of rest acc' step
  end.

(* ================================================================== *)
(** ** [SyncManager]: the methods *)

Definition readFileContentWithType (file : TFile) : M (string * string) :=
  let ext := JS.toLowerCase (extension file) in
  if String.eqb ext "md" then
    c <- vault_read file ;; ret (c, "text/markdown")
  else if String.eqb ext "txt" then
    c <- vault_read file ;; ret (c, "text/plain")
  else
    arrayBuffer <- vault_readBinary file ;;
    let contentType :=
      if String.eqb ext "png" then "image/png"
      else if String.eqb ext "jpg" || String.eqb ext "jpeg" then "image/jpeg"
      else if String.eqb ext "gif" then "image/gif"
      else if String.eqb ext "svg" then "image/svg+xml"
      else if String.eqb ext "webp" then "image/webp"
      else if String.eqb ext "pdf" then "application/pdf"
      else "application/octet-stream" in
    ret (arrayBuffer, contentType).

Definition getFilesToSync (s : SyncManager) : list TFile :=
  let allFiles := getFiles (vault s) in
  let vaultName := vaultName (vault s) in
  let settingsBaseFolder := baseFolder (settings s) in
  let baseFolder := JS.or settingsBaseFolder vaultName in
  let configDir := configDir (vault s) in
  filter (fun file =>
            if JS.startsWith (path file) (configDir ++ "/") then false
            else if JS.startsWith (path file) "backups/" then false
            else if negb (JS.truthy settingsBaseFolder) then true
            else if String.eqb baseFolder vaultName then true
            else JS.startsWith (path file) (baseFolder ++ "/")
                 || String.eqb (path file) baseFolder)
         allFiles.

Definition fileKey (file : TFile) : M string :=
  gets (fun s => getFileKey (vaultName (vault s)) (baseFolder (settings s)) file).

Definition localPathFromKey (key : string) : M string :=
  gets (fun s =>
          getLocalPathFromKey (vaultName (vault s)) (baseFolder (settings s)) key).

Definition no_service (s : SyncManager) : bool :=
  match r2Service s with Some _ => false | None => true end.

(** [syncFile(file)]; [now] is what [new Date().toISOString()] gives. *)
Definition syncFile_body (now : string) (file : TFile) : M bool :=
  ct <- readFileContentWithType file ;;
  key <- fileKey file ;;
  success <- r2_uploadFile key (fst ct) (snd ct) ;;
  (if success : bool then
     notice (NSynced (name file)) ;;;
     set_lastSyncTime now
   else
     notice (NSyncFailed (name file))) ;;;
  ret success.

Definition syncFile (now : string) (file : TFile) : M bool :=
  busy <- gets (fun s => syncInProgress s || no_service s) ;;
  if busy : bool then ret false
  else
    set_syncInProgress true ;;;
    try_finally
      (try_catch (syncFile_body now file)
                 (notice (NSyncError (name file)) ;;; ret false))
      (set_syncInProgress false).

(** One turn of the loop of [downloadRemoteChanges]; the accumulator is
    [(downloadedCount, updatedCount)]. *)
Definition downloadRemoteKey (remoteKey : string) (counts : nat * nat)
  : M (nat * nat) :=
  let '(downloadedCount, updatedCount) := counts in
  if JS.startsWith remoteKey "backups/" then ret counts
  else
    localPath <- localPathFromKey remoteKey ;;
    localFile <- gets (fun s => getAbstractFileByPath (vault s) localPath) ;;
    match localFile with
    | Some (AFile localFile) =>
        remoteContent <- r2_downloadFile remoteKey ;;
        match remoteContent with
        | Some remoteContent =>
            if JS.truthy remoteContent then
              localContent <- vault_read localFile ;;
              if negb (String.eqb remoteContent localContent) then
                vault_modify localFile remoteContent ;;;
                ret (downloadedCount, S updatedCount)
              else ret counts
            else ret counts
        | None => ret counts
        end
    | _ =>
        remoteContent <- r2_downloadFile remoteKey ;;
        match remoteContent with
        | Some remoteContent =>
            if JS.truthy remoteContent then
              let pathParts := JS.split "/" localPath in
              (if (1 <? List.length pathParts)%nat then
                 let dirPath := JS.join "/" (removelast pathParts) in
                 dir <- gets (fun s => getAbstractFileByPath (vault s) dirPath) ;;
                 match dir with
                 | None => vault_createFolder dirPath
                 | Some _ => ret tt
                 end
               else ret tt) ;;;
              vault_create localPath remoteContent ;;;
              ret (S downloadedCount, updatedCount)
            else ret counts
        | None => ret counts
        end
    end.

Definition downloadRemoteChanges_body : M bool :=
  baseFolder <- gets (fun s => JS.or (baseFolder (settings s))
                                     (vaultName (vault s))) ;;
  remoteFiles <- r2_listFiles baseFolder ;;
  counts <- for_of remoteFiles (0, 0) downloadRemoteKey ;;
  (if (0 <? fst counts + snd counts)%nat
   then notice (NDownloaded (fst counts) (snd counts))
   else ret tt) ;;;
  ret true.

Definition downloadRemoteChanges : M bool :=
  off <- gets (fun s => no_service s || negb (bidirectionalSync (settings s))) ;;
  if off : bool then ret false
  else try_catch downloadRemoteChanges_body
                 (notice NDownloadError ;;; ret false).

Definition downloadAndSync : M bool :=
  off <- gets (fun s => syncInProgress s || no_service s
                        || negb (bidirectionalSync (settings s))) ;;
  if off : bool then ret false
  else
    set_syncInProgress true ;;;
    try_finally
      (try_catch downloadRemoteChanges (notice NDownloadError ;;; ret false))
      (set_syncInProgress false).

(** One turn of the upload loop of [syncAllFiles]; the accumulator is
    [successCount]. *)
Definition uploadOne (file : TFile) (successCount : nat) : M nat :=
  ct <- readFileContentWithType file ;;
  key <- fileKey file ;;
  success <- r2_uploadFile key (fst ct) (snd ct) ;;
  ret (if success : bool then S successCount else successCount).

Definition syncAllFiles_body (now : string) : M bool :=
  bidi <- gets (fun s => bidirectionalSync (settings s)) ;;
  (if bidi : bool then downloadRemoteChanges ;;; ret tt else ret tt) ;;;
  files <- gets getFilesToSync ;;
  let totalCount := List.length files in
  notice (NBulkStart totalCount) ;;;
  successCount <- for_of files 0 uploadOne ;;
  set_lastSyncTime now ;;;
  (if (successCount =? totalCount)%nat
   then notice (NBulkAll totalCount)
   else notice (NBulkPartial successCount totalCount)) ;;;
  ret (0 <? successCount)%nat.

Definition syncAllFiles (now : string) : M bool :=
  busy <- gets (fun s => syncInProgress s || no_service s) ;;
  if busy : bool then ret false
  else
    set_syncInProgress true ;;;
    try_finally
      (try_catch (syncAllFiles_body now) (notice NBulkError ;;; ret false))
      (set_syncInProgress false).

(** One turn of the loop of [syncMissingFiles]; the accumulator is
    [uploaded]. *)
Definition uploadMissing (remoteSet : list string) (file : TFile)
  (uploaded : nat) : M nat :=
  key <- fileKey file ;;
  if negb (JS.mem key remoteSet) then
    ct <- readFileContentWithType file ;;
    ok <- r2_uploadFile key (fst ct) (snd ct) ;;
    ret (if ok : bool then S uploaded else uploaded)
  else ret uploaded.

Definition syncMissingFiles_body (now : string) : M bool :=
  files <- gets getFilesToSync ;;
  baseFolder <- gets (fun s => JS.or (baseFolder (settings s))
                                     (vaultName (vault s))) ;;
  remoteKeys <- r2_listFiles baseFolder ;;
  uploaded <- for_of files 0 (uploadMissing remoteKeys) ;;
  set_lastSyncTime now ;;;
  (if (0 <? uploaded)%nat then notice (NMissingUploaded uploaded)
   else notice NMissingNone) ;;;
  ret (0 <? uploaded)%nat.

Definition syncMissingFiles (now : string) : M bool :=
  busy <- gets (fun s => syncInProgress s || no_service s) ;;
  if busy : bool then ret false
  else
    set_syncInProgress true ;;;
    try_finally
      (try_catch (syncMissingFiles_body now) (notice NMissingError ;;; ret false))
      (set_syncInProgress false).

(* ================================================================== *)
(** ** [JSON.stringify] and [JSON.parse]

    The marker of a backup is a JSON document.  [stringify] is
    [JSON.stringify] on strings and on the marker object; [parse] is
    [JSON.parse], a recursive-descent reader of the JSON grammar (a number
    is kept as its literal). *)

Module JSON.

Inductive Value :=
| VNull
| VBool (b : bool)
| VNumber (literal : string)
| VString (s : string)
| VArray (elements : list Value)
| VObject (members : list (string * Value)).

(** The double quote character. *)
Definition dquote : ascii := ascii_of_nat 34.

Definition hexDigit (n : nat) : ascii :=
  if (n <? 10)%nat then ascii_of_nat (48 + n) else ascii_of_nat (87 + n).

(** The quoted form of a string: [QuoteJSONString]. *)
Fixpoint escape (s : string) : string :=
  match s with
  | EmptyString => EmptyString
  | String c rest =>
      let n := nat_of_ascii c in
      (if (n =? 34)%nat then String "\" (String dquote "")
       else if (n =? 92)%nat then "\\"
       else if (n =? 8)%nat then "\b"
       else if (n =? 12)%nat then "\f"
       else if (n =? 10)%nat then "\n"
       else if (n =? 13)%nat then "\r"
       else if (n =? 9)%nat then "\t"
       else if (n <? 32)%nat then
         "\u00" ++ String (hexDigit (n / 16)) (String (hexDigit (n mod 16)) "")
       else String c "")
      ++ escape rest
  end.

Definition quote (s : string) : string :=
  String dquote (escape s) ++ String dquote "".

(** [JSON.stringify({ timestamp, folderPath, type: 'backup_marker' })] *)
Definition stringify_marker (timestamp folderPath : string) : string :=
  "{" ++ quote "timestamp" ++ ":" ++ quote timestamp ++ ","
      ++ quote "folderPath" ++ ":" ++ quote folderPath ++ ","
      ++ quote "type" ++ ":" ++ quote "backup_marker" ++ "}".

Definition isWs (c : ascii) : bool :=
  let n := nat_of_ascii c in
  (n =? 32)%nat || (n =? 9)%nat || (n =? 10)%nat || (n =? 13)%nat.

Fixpoint skipWs (s : string) : string :=
  match s with
  | String c rest => if isWs c then skipWs rest else s
  | EmptyString => s
  end.

Definition isDigit (c : ascii) : bool :=
  let n := nat_of_ascii c in ((48 <=? n) && (n <=? 57))%nat.

Definition hexValue (c : ascii) : option nat :=
  let n := nat_of_ascii c in
  if ((48 <=? n) && (n <=? 57))%nat then Some (n - 48)
  else if ((97 <=? n) && (n <=? 102))%nat then Some (n - 87)
  else if ((65 <=? n) && (n <=? 70))%nat then Some (n - 55)
  else None.

(** The UTF-8 bytes of a code unit written [\uXXXX]. *)
Definition utf8 (n : nat) : string :=
  if (n <? 128)%nat then String (ascii_of_nat n) ""
  else if (n <? 2048)%nat then
    String (ascii_of_nat (192 + n / 64))
      (String (ascii_of_nat (128 + n mod 64)) "")
  else
    String (ascii_of_nat (224 + n / 4096))
      (String (ascii_of_nat (128 + (n / 64) mod 64))
         (String (ascii_of_nat (128 + n mod 64)) "")).

(** The characters of a string literal after its opening quote, up to the
    closing one; the rest of the text follows. *)
Fixpoint readString (s : string) : option (string * string) :=
  match s with
  | EmptyString => None
  | String c rest =>
      let n := nat_of_ascii c in
      if (n =? 34)%nat then Some (EmptyString, rest)
      else if (n =? 92)%nat then
        match rest with
        | String e rest' =>
            let simple (x : string) :=
              match readString rest' with
              | Some (str, r) => Some (x ++ str, r)
              | None => None
              end in
            let m := nat_of_ascii e in
            if (m =? 34)%nat then simple (String e "")
            else if (m =? 92)%nat then simple (String e "")
            else if (m =? 47)%nat then simple (String e "")
            else if (m =? 98)%nat then simple (String (ascii_of_nat 8) "")
            else if (m =? 102)%nat then simple (String (ascii_of_nat 12) "")
            else if (m =? 110)%nat then simple (String (ascii_of_nat 10) "")
            else if (m =? 114)%nat then simple (String (ascii_of_nat 13) "")
            else if (m =? 116)%nat then simple (String (ascii_of_nat 9) "")
            else if (m =? 117)%nat then
              match rest' with
              | String h1 (String h2 (String h3 (String h4 rest''))) =>
                  match hexValue h1, hexValue h2, hexValue h3, hexValue h4 with
                  | Some a, Some b, Some c', Some d =>
                      match readString rest'' with
                      | Some (str, r) =>
                          Some (utf8 (((a * 16 + b) * 16 + c') * 16 + d) ++ str, r)
                      | None => None
                      end
                  | _, _, _, _ => None
                  end
              | _ => None
              end
            else None
        | EmptyString => None
        end
      else if (n <? 32)%nat then None
      else match readString rest with
           | Some (str, r) => Some (String c str, r)
           | None => None
           end
  end.

(** The leading digits of a text, and what follows them. *)
Fixpoint spanDigits (s : string) : string * string :=
  match s with
  | String c rest =>
      if isDigit c then let '(d, r) := spanDigits rest in (String c d, r)
      else (EmptyString, s)
  | EmptyString => (EmptyString, s)
  end.

(** A number literal: an optional minus sign, an integer part with no
    leading zero, an optional fraction and an optional exponent. *)
Definition readNumber (s : string) : option (string * string) :=
  let '(sign, s1) :=
    match s with
    | String "-" r => ("-", r)
    | _ => ("", s)
    end in
  let '(int, s2) := spanDigits s1 in
  match int with
  | EmptyString => None
  | String "0" (String _ _) => None
  | _ =>
      let frac :=
        match s2 with
        | String "." r =>
            let '(f, r') := spanDigits r in
            match f with
            | EmptyString => None
            | _ => Some ("." ++ f, r')
            end
        | _ => Some ("", s2)
        end in
      match frac with
      | None => None
      | Some (f, s3) =>
          let exp :=
            match s3 with
            | String e r =>
                if Ascii.eqb e "e" || Ascii.eqb e "E" then
                  let '(sg, r1) :=
                    match r with
                    | String "+" r' => ("+", r')
                    | String "-" r' => ("-", r')
                    | _ => ("", r)
                    end in
                  let '(x, r2) := spanDigits r1 in
                  match x with
                  | EmptyString => None
                  | _ => Some (String e sg ++ x, r2)
                  end
                else Some ("", s3)
            | EmptyString => Some ("", s3)
            end in
          match exp with
          | None => None
          | Some (x, s4) => Some (sign ++ int ++ f ++ x, s4)
          end
      end
  end.

(** A value, then the elements of an array after its first, then the
    members of an object after its first; [fuel] bounds the nesting and
    the number of elements. *)
Fixpoint readValue (fuel : nat) (s : string) {struct fuel}
  : option (Value * string) :=
  match fuel with
  | O => None
  | S fuel' =>
      let fix readElements (n : nat) (acc : list Value) (s : string)
        {struct n} : option (list Value * string) :=
        match n with
        | O => None
        | S n' =>
            match readValue fuel' s with
            | Some (v, r) =>
                match skipWs r with
                | String "," r' => readElements n' (acc ++ [v])%list r'
                | String "]" r' => Some ((acc ++ [v])%list, r')
                | _ => None
                end
            | None => None
            end
        end in
      let fix readMembers (n : nat) (acc : list (string * Value))
        (s : string) {struct n} : option (list (string * Value) * string) :=
        match n with
        | O => None
        | S n' =>
            match skipWs s with
            | String q r =>
                if Ascii.eqb q dquote then
                  match readString r with
                  | Some (k, r1) =>
                      match skipWs r1 with
                      | String ":" r2 =>
                          match readValue fuel' r2 with
                          | Some (v, r3) =>
                              match skipWs r3 with
                              | String "," r4 =>
                                  readMembers n' (acc ++ [(k, v)])%list r4
                              | String "}" r4 => Some ((acc ++ [(k, v)])%list, r4)
                              | _ => None
                              end
                          | None => None
                          end
                      | _ => None
                      end
                  | None => None
                  end
                else None
            | EmptyString => None
            end
        end in
      match skipWs s with
      | String "n" (String "u" (String "l" (String "l" r))) =>
          Some (VNull, r)
      | String "t" (String "r" (String "u" (String "e" r))) =>
          Some (VBool true, r)
      | String "f" (String "a" (String "l" (String "s" (String "e" r)))) =>
          Some (VBool false, r)
      | String "[" r =>
          match skipWs r with
          | String "]" r' => Some (VArray [], r')
          | _ =>
              match readElements (String.length r) [] r with
              | Some (l, r') => Some (VArray l, r')
              | None => None
              end
          end
      | String "{" r =>
          match skipWs r with
          | String "}" r' => Some (VObject [], r')
          | _ =>
              match readMembers (String.length r) [] r with
              | Some (l, r') => Some (VObject l, r')
              | None => None
              end
          end
      | String q r =>
          if Ascii.eqb q dquote then
            match readString r with
            | Some (str, r') => Some (VString str, r')
            | None => None
            end
          else
            match readNumber (String q r) with
            | Some (lit, r') => Some (VNumber lit, r')
            | None => None
            end
      | EmptyString => None
      end
  end.

(** [JSON.parse(text)]; [None] when it throws a [SyntaxError]. *)
Definition parse (text : string) : option Value :=
  match readValue (S (String.length text)) text with
  | Some (v, r) =>
      match skipWs r with
      | EmptyString => Some v
      | _ => None
      end
  | None => None
  end.

(** [data.name] on an object: the last member of that name. *)
Fixpoint member (name : string) (members : list (string * Value))
  : option Value :=
  match members with
  | [] => None
  | (k, v) :: rest =>
      match member name rest with
      | Some v' => Some v'
      | None => if String.eqb k name then Some v else None
      end
  end.

End JSON.

(* ================================================================== *)
(** ** [Date]

    A date is its time value, the milliseconds since the epoch; [None] is
    the invalid date (time value [NaN]).  [parse] reads the date-time
    format of ECMAScript in UTC: [YYYY-MM-DD] alone, or followed by
    [THH:mm], [THH:mm:ss] or [THH:mm:ss.sss] and [Z], which is what
    [toISOString] writes.  The other forms of the format (a year or a year
    and month alone, a time with an offset or with no zone) and the strings
    outside it, whose reading the standard leaves to the engine, are not
    modelled: they are invalid here. *)

Module JSDate.

Definition msPerDay : Z := 86400000.

Definition digitValue (c : ascii) : option Z :=
  let n := nat_of_ascii c in
  if ((48 <=? n) && (n <=? 57))%nat then Some (Z.of_nat (n - 48)) else None.

(** Exactly [n] digits. *)
Fixpoint readDigits (n : nat) (acc : Z) (s : string) : option (Z * string) :=
  match n with
  | O => Some (acc, s)
  | S n' =>
      match s with
      | String c rest =>
          match digitValue c with
          | Some d => readDigits n' (acc * 10 + d)%Z rest
          | None => None
          end
      | EmptyString => None
      end
  end.

Definition expect (c : ascii) (s : string) : option string :=
  match s with
  | String d rest => if Ascii.eqb c d then Some rest else None
  | EmptyString => None
  end.

Definition isLeap (y : Z) : bool :=
  ((y mod 4 =? 0) && negb (y mod 100 =? 0) || (y mod 400 =? 0))%Z.

Definition daysInMonth (y m : Z) : Z :=
  if (m =? 2)%Z then (if isLeap y then 29 else 28)%Z
  else if ((m =? 4) || (m =? 6) || (m =? 9) || (m =? 11))%Z then 30%Z
  else 31%Z.

(** Days from 1970-01-01 to the given day of the proleptic Gregorian
    calendar. *)
Definition daysFromCivil (y m d : Z) : Z :=
  let y' := (if m <=? 2 then y - 1 else y)%Z in
  let era := (y' / 400)%Z in
  let yoe := (y' - era * 400)%Z in
  let mp := (if m <=? 2 then m + 9 else m - 3)%Z in
  let doy := ((153 * mp + 2) / 5 + d - 1)%Z in
  let doe := (yoe * 365 + yoe / 4 - yoe / 100 + doy)%Z in
  (era * 146097 + doe - 719468)%Z.

Definition timeValue (y m d hh mm ss ms : Z) : option Z :=
  if ((1 <=? m) && (m <=? 12) && (1 <=? d) && (d <=? daysInMonth y m)
      && (mm <=? 59) && (ss <=? 59)
      && ((hh <=? 23) || ((hh =? 24) && (mm =? 0) && (ss =? 0) && (ms =? 0))))%Z
  then Some (daysFromCivil y m d * msPerDay
             + hh * 3600000 + mm * 60000 + ss * 1000 + ms)%Z
  else None.

Definition bindo {A B} (o : option A) (k : A -> option B) : option B :=
  match o with Some a => k a | None => None end.

(** The time of day after the [T], up to the closing [Z]:
    [(hh, mm, ss, ms)]. *)
Definition readTime (s : string) : option (Z * Z * Z * Z) :=
  bindo (readDigits 2 0 s) (fun '(hh, s1) =>
  bindo (expect ":" s1) (fun s2 =>
  bindo (readDigits 2 0 s2) (fun '(mm, s3) =>
  match s3 with
  | String "Z" EmptyString => Some (hh, mm, 0, 0)%Z
  | String ":" s4 =>
      bindo (readDigits 2 0 s4) (fun '(ss, s5) =>
      match s5 with
      | String "Z" EmptyString => Some (hh, mm, ss, 0%Z)
      | String "." s6 =>
          bindo (readDigits 3 0 s6) (fun '(ms, s7) =>
          match s7 with
          | String "Z" EmptyString => Some (hh, mm, ss, ms)
          | _ => None
          end)
      | _ => None
      end)
  | _ => None
  end))).

(** [new Date(string)] *)
Definition parse (s : string) : option Z :=
  bindo (readDigits 4 0 s) (fun '(y, s1) =>
  bindo (expect "-" s1) (fun s2 =>
  bindo (readDigits 2 0 s2) (fun '(m, s3) =>
  bindo (expect "-" s3) (fun s4 =>
  bindo (readDigits 2 0 s4) (fun '(d, s5) =>
  match s5 with
  | EmptyString => timeValue y m d 0 0 0 0
  | String "T" s6 =>
      bindo (readTime s6) (fun '(hh, mm, ss, ms) =>
      timeValue y m d hh mm ss ms)
  | _ => None
  end))))).

(** [date.setDate(date.getDate() - days)]: the same time of day, [days]
    days earlier (no clock change between the two days). *)
Definition minusDays (t days : Z) : Z := (t - days * msPerDay)%Z.

(** [a < b] on dates; an invalid date is less than nothing. *)
Definition lt (a : option Z) (b : Z) : bool :=
  match a with Some t => (t <? b)%Z | None => false end.

End JSDate.

(* ================================================================== *)
(** ** [R2ServiceObsidian]: backups *)

Record Backup := mkBackup {
  timestamp : string;
  folderPath : string
}.

Module R2ServiceObsidian.

Definition createBackup (folderPath timestamp : string) (r : R2) : bool * R2 :=
  let backupKey := "backups/" ++ timestamp ++ "/" ++ folderPath in
  if JS.mem backupKey (failPut r) then (false, r)
  else (true,
        mkR2 (putObject backupKey
                (mkObject (JSON.stringify_marker timestamp folderPath)
                          "application/json")
                (objects r))
             (failPut r) (failGet r) (failList r) (failDelete r)).

(** [backups.push({ timestamp: data.timestamp, folderPath:
    data.folderPath })] for a parsed marker.  Reading a property of
    [null] throws, and the marker is skipped.  The entries are typed with
    string fields; a document that is not an object with these two
    members as strings is not a marker [createBackup] writes, and is left
    out of the listing here. *)
Definition entryOf (data : JSON.Value) : list Backup :=
  match data with
  | JSON.VObject members =>
      match JSON.member "timestamp" members,
            JSON.member "folderPath" members with
      | Some (JSON.VString t), Some (JSON.VString f) => [mkBackup t f]
      | _, _ => []
      end
  | _ => []
  end.

(** The body of the loop over the listed keys. *)
Definition readMarker (r : R2) (key : string) : list Backup :=
  if JS.endsWith key "backup_marker" then
    match downloadFile key r with
    | Some content =>
        if JS.truthy content then
          match JSON.parse content with
          | Some data => entryOf data
          | None => []
          end
        else []
    | None => []
    end
  else [].

(** [b.timestamp.localeCompare(a.timestamp)], by code units (on
    timestamps of one shape, digits at the same places, this is the
    order [localeCompare] gives). *)
Definition comparefn (a b : Backup) : comparison :=
  String.compare (timestamp b) (timestamp a).

(** [Array.prototype.sort] with [comparefn]: a stable sort. *)
Fixpoint insertBackup (x : Backup) (l : list Backup) : list Backup :=
  match l with
  | [] => [x]
  | y :: rest =>
      match comparefn x y with
      | Lt => x :: y :: rest
      | _ => y :: insertBackup x rest
      end
  end.

Definition sortBackups (l : list Backup) : list Backup :=
  fold_left (fun acc x => insertBackup x acc) l [].

Definition listBackups (r : R2) : list Backup :=
  if JS.mem "backups/" (failList r) then []
  else sortBackups
         (flat_map (readMarker r) (listObjects "backups/" (objects r))).

Definition deleteBackup (timestamp : string) (r : R2) : bool * R2 :=
  let prefix := "backups/" ++ timestamp ++ "/" in
  if JS.mem prefix (failList r) then (false, r)
  else (true,
        fold_left (fun r key => snd (deleteFile key r))
                  (listObjects prefix (objects r)) r).

(** [cleanupOldBackups(retentionDays)]; [now] is the time value of
    [new Date()]. *)
Definition cleanupOldBackups (retentionDays : Z) (now : Z) (r : R2)
  : nat * R2 :=
  let backups := listBackups r in
  let cutoffDate := JSDate.minusDays now retentionDays in
  fold_left
    (fun (acc : nat * R2) backup =>
       let '(deletedCount, r) := acc in
       let backupDate := JSDate.parse (timestamp backup) in
       if JSDate.lt backupDate cutoffDate then
         (S deletedCount, snd (deleteBackup (timestamp backup) r))
       else acc)
    backups (0, r).

End R2ServiceObsidian.

(* ================================================================== *)
(** ** [SyncManager]: backups *)

(** [createBackup(folderPath)]; [now] is [new Date().toISOString()]. *)
Definition createBackup (now : string) (folderPath : string) : M bool :=
  off <- gets (fun s => no_service s || negb (enableBackups (settings s))) ;;
  if off : bool then ret false
  else
    try_catch
      (let timestamp := JS.replaceColonDot now in
       success <- with_r2 (fun r =>
                    let '(ok, r') :=
                      R2ServiceObsidian.createBackup folderPath timestamp r in
                    set_r2 r' ;;; ret ok) ;;
       (if success : bool then notice (NBackupCreated folderPath)
        else notice (NBackupFailed folderPath)) ;;;
       ret success)
      (notice NBackupError ;;; ret false).

Definition listBackups : M (list Backup) :=
  off <- gets no_service ;;
  if off : bool then ret []
  else try_catch (with_r2 (fun r => ret (R2ServiceObsidian.listBackups r)))
                 (ret []).

(** [cleanupOldBackups()]; [now] is the time value of [new Date()]. *)
Definition cleanupOldBackups (now : Z) : M nat :=
  off <- gets (fun s => no_service s || negb (enableBackups (settings s))) ;;
  if off : bool then ret 0
  else
    try_catch
      (days <- gets (fun s => backupRetentionDays (settings s)) ;;
       deletedCount <- with_r2 (fun r =>
                         let '(n, r') :=
                           R2ServiceObsidian.cleanupOldBackups days now r in
                         set_r2 r' ;;; ret n) ;;
       (if (0 <? deletedCount)%nat then notice (NCleaned deletedCount)
        else ret tt) ;;;
       ret deletedCount)
      (ret 0).

(* ================================================================== *)
(** ** [R2SyncPlugin.debouncedSync] and the timers of the event loop

    [window.setTimeout] hands out positive handles; a pending timer keeps
    the closure of its callback, here the captured [currentId] and [file].
    [invoked] records the calls of [syncManager.syncFile]. *)

Record Timer := mkTimer {
  handle : nat;
  due : Z;                 (* the time, in ms, from which it may fire *)
  currentId : nat;
  timerFile : TFile
}.

Record R2SyncPlugin := mkPlugin {
  syncTimeout : option nat;     (* [number | null] *)
  debounceId : nat;
  syncDelay : Z;                (* [settings.syncDelay], in seconds *)
  clock : Z;                    (* the current time, in ms *)
  timers : list Timer;          (* the pending timers *)
  nextHandle : nat;
  invoked : list TFile
}.

(** The plugin once loaded, at time 0. *)
Definition loaded (delay : Z) : R2SyncPlugin :=
  mkPlugin None 0 delay 0 [] 1 [].

Definition clearTimeout (h : nat) (l : list Timer) : list Timer :=
  filter (fun t => negb (handle t =? h)%nat) l.

(** [if (this.syncTimeout)]: [null] and 0 are falsy. *)
Definition truthyHandle (o : option nat) : bool :=
  match o with
  | Some h => negb (h =? 0)%nat
  | None => false
  end.

Definition debouncedSync (file : TFile) (p : R2SyncPlugin) : R2SyncPlugin :=
  let timers1 :=
    if truthyHandle (syncTimeout p) then
      match syncTimeout p with
      | Some h => clearTimeout h (timers p)
      | None => timers p
      end
    else timers p in
  let debounceId' := S (debounceId p) in
  let currentId := debounceId' in
  let h := nextHandle p in
  mkPlugin (Some h) debounceId' (syncDelay p) (clock p)
           (timers1 ++ [mkTimer h (clock p + syncDelay p * 1000) currentId file])
           (S h) (invoked p).

(** The callback of a timer. *)
Definition fire (t : Timer) (p : R2SyncPlugin) : R2SyncPlugin :=
  let invoked' :=
    if (currentId t =? debounceId p)%nat then (invoked p ++ [timerFile t])%list
    else invoked p in
  mkPlugin None (debounceId p) (syncDelay p) (clock p)
           (clearTimeout (handle t) (timers p)) (nextHandle p) invoked'.

(** The pending timer that fires first: the earliest due, the oldest among
    equals. *)
Fixpoint earliest (l : list Timer) : option Timer :=
  match l with
  | [] => None
  | t :: rest =>
      match earliest rest with
      | Some t' => if (due t' <? due t)%Z then Some t' else Some t
      | None => Some t
      end
  end.

(** The event loop runs the pending timers that are [ready], in order;
    [fuel] bounds the number of timers fired. *)
Fixpoint runTimers (fuel : nat) (ready : Timer -> bool) (p : R2SyncPlugin)
  : R2SyncPlugin :=
  match fuel with
  | O => p
  | S fuel' =>
      match earliest (filter ready (timers p)) with
      | Some t => runTimers fuel' ready (fire t p)
      | None => p
      end
  end.

(** Time passes until [now], the moment of an event: the timers due before
    then have fired.  A timer due at that very moment has not: its callback
    is a task of its own, run after the handler of the event. *)
Definition advance (now : Z) (p : R2SyncPlugin) : R2SyncPlugin :=
  let p' := runTimers (List.length (timers p)) (fun t => (due t <? now)%Z) p in
  mkPlugin (syncTimeout p') (debounceId p') (syncDelay p') (Z.max (clock p) now)
           (timers p') (nextHandle p') (invoked p').

(** A [modify] or [create] event of the vault for [file] at time [at_]. *)
Record ChangeEvent := mkEvent {
  at_ : Z;
  changed : TFile
}.

Definition onChange (e : ChangeEvent) (p : R2SyncPlugin) : R2SyncPlugin :=
  debouncedSync (changed e) (advance (at_ e) p).

Definition runEvents (es : list ChangeEvent) (p : R2SyncPlugin) : R2SyncPlugin :=
  fold_left (fun p e => onChange e p) es p.

(** Nothing more happens: every pending timer fires. *)
Definition settle (p : R2SyncPlugin) : R2SyncPlugin :=
  runTimers (List.length (timers p)) (fun _ => true) p.

(** The events of one quiet window: each comes before the timer set by the
    one before it is due. *)
Fixpoint quietWindow (delay : Z) (es : list ChangeEvent) : Prop :=
  match es with
  | [] => True
  | e :: rest =>
      match rest with
      | [] => True
      | e' :: _ => (at_ e <= at_ e' < at_ e + delay * 1000)%Z
      end /\ quietWindow delay rest
  end.
(* ================================================================== *)
(** ** [SyncManager.deleteRemoteForFile]

    The notices of this method are returned beside its result. *)

Inductive DeleteNotice :=
| NDeleted (name : string)
| NDeleteFailed (name : string)
| NDeleteError.

(** The extensions the plugin reacts to, compared as they are written. *)
Definition isSupportedFile (file : TFile) : bool :=
  String.eqb (extension file) "md"
  || String.eqb (extension file) "png" || String.eqb (extension file) "jpg"
  || String.eqb (extension file) "jpeg" || String.eqb (extension file) "gif"
  || String.eqb (extension file) "svg" || String.eqb (extension file) "webp"
  || String.eqb (extension file) "pdf" || String.eqb (extension file) "txt".

Definition r2_deleteFile (key : string) : M bool :=
  with_r2 (fun r =>
    let '(ok, r') := deleteFile key r in
    set_r2 r' ;;; ret ok).

Definition deleteRemoteForFile (file : TFile) : M (bool * list DeleteNotice) :=
  off <- gets no_service ;;
  if off : bool then ret (false, [])
  else if negb (isSupportedFile file) then ret (false, [])
  else
    try_catch
      (key <- fileKey file ;;
       ok <- r2_deleteFile key ;;
       if ok : bool then ret (true, [NDeleted (name file)])
       else ret (false, [NDeleteFailed (name file)]))
      (ret (false, [NDeleteError])).

(* ================================================================== *)
(** ** [R2SyncPlugin]: the vault events and [onunload] *)

(** The handler of [modify] and of [create]: a supported file is handed to
    [debouncedSync]. *)
Definition onModify (file : TFile) (p : R2SyncPlugin) : R2SyncPlugin :=
  if isSupportedFile file then debouncedSync file p else p.


(* ================================================================== *)
(** ** [StatusBarComponent.updateStatus] *)

Inductive TimeAgo :=
| DaysAgo (n : Z)
| HoursAgo (n : Z)
| MinsAgo (n : Z)
| JustNow.

Inductive StatusText :=
| SyncInProgressText               (* R2 Sync in progress... *)
| LastSyncText (timeAgo : TimeAgo) (* R2 Last sync: ... *)
| SyncReadyText.                   (* R2 Sync ready *)

(** The age shown for a last sync at [syncDate], seen at [now] (time
    values; [None] is the invalid date, whose comparisons are all false). *)
Definition timeAgo (syncDate : option Z) (now : Z) : TimeAgo :=
  match syncDate with
  | None => JustNow
  | Some t =>
      let diffMs := (now - t)%Z in
      let diffMins := (diffMs / 60000)%Z in
      let diffHours := (diffMins / 60)%Z in
      let diffDays := (diffHours / 24)%Z in
      if (0 <? diffDays)%Z then DaysAgo diffDays
      else if (0 <? diffHours)%Z then HoursAgo diffHours
      else if (0 <? diffMins)%Z then MinsAgo diffMins
      else JustNow
  end.

(** The text of the status bar; [now] is the time value of [new Date()]. *)
Definition updateStatus (now : Z) (s : SyncManager) : StatusText :=
  if syncInProgress s then SyncInProgressText
  else
    let lastSync := lastSyncTime (settings s) in
    if JS.truthy lastSync then LastSyncText (timeAgo (JSDate.parse lastSync) now)
    else SyncReadyText.

(* ================================================================== *)
(** ** Notions used in the statements *)

(** [keeps proj m]: running [m] does not change the part [proj] of the
    state, however it ends. *)
Definition keeps {X A : Type} (proj : SyncManager -> X) (m : M A) : Prop :=
  forall s, proj (snd (m s)) = proj s.

(** [settings.lastSyncTime] *)
Definition lastSync (s : SyncManager) : string := lastSyncTime (settings s).

(** The projections of the state that the vault calls do not touch. *)
Definition vault_blind {X} (proj : SyncManager -> X) : Prop :=
  forall s v, proj (mkSyncManager v (r2Service s) (settings s)
                      (syncInProgress s) (notices s)) = proj s.

(** Those that the notices do not touch, and those that the client of
    the object store does not. *)
Definition notice_blind {X} (proj : SyncManager -> X) : Prop :=
  forall s n, proj (mkSyncManager (vault s) (r2Service s) (settings s)
                      (syncInProgress s) n) = proj s.

Definition r2_blind {X} (proj : SyncManager -> X) : Prop :=
  forall s r, proj (mkSyncManager (vault s) r (settings s)
                      (syncInProgress s) (notices s)) = proj s.

(** The state with the in-flight flag set, with it reset, and with one
    more notice shown. *)
Definition started (s : SyncManager) : SyncManager :=
  snd (set_syncInProgress true s).

Definition finished (s : SyncManager) : SyncManager :=
  snd (set_syncInProgress false s).

Definition noticed (n : Notice) (s : SyncManager) : SyncManager :=
  snd (notice n s).

(** The shape [syncFile], [syncAllFiles] and [syncMissingFiles] share: the
    guard, the flag set, [body] in [try], a [catch] that shows [err] and
    returns [false], the flag reset in [finally]. *)
Definition pass (body : M bool) (err : Notice) : M bool :=
  busy <- gets (fun s => syncInProgress s || no_service s) ;;
  if busy : bool then ret false
  else
    set_syncInProgress true ;;;
    try_finally (try_catch body (notice err ;;; ret false))
                (set_syncInProgress false).

(** What [lastSyncTime] does over a pass made of [body]: untouched when
    the guard rejects the call and when [body] throws, set to [now] when
    [body] runs to its end, whatever it returns. *)
Definition updates_on_completion (now : string) (body op : M bool)
  (s : SyncManager) : Prop :=
  (syncInProgress s = true \/ r2Service s = None ->
   lastSync (snd (op s)) = lastSync s)
  /\ (forall e s', body (started s) = (Abrupt e, s') ->
      lastSync (snd (op s)) = lastSync s)
  /\ (forall b s', syncInProgress s = false -> r2Service s <> None ->
      body (started s) = (Normal b, s') ->
      fst (op s) = Normal b /\ lastSync (snd (op s)) = now).

(** [vault.read(file)] succeeds. *)
Definition readable (v : Vault) (file : TFile) : bool :=
  negb (JS.mem (path file) (unreadable v))
  && match lookupFile (path file) (files v) with
     | Some _ => true
     | None => false
     end.

(** The keys whose upload the object store refuses. *)
Definition failPutOf (s : SyncManager) : list string :=
  match r2Service s with
  | Some r => failPut r
  | None => []
  end.

(** The upload of [file] is accepted by the object store. *)
Definition uploadAccepted (s : SyncManager) (file : TFile) : bool :=
  negb (JS.mem (getFileKey (vaultName (vault s)) (baseFolder (settings s)) file)
               (failPutOf s)).

(** The number of uploads that succeed among [files]. *)
Definition accepted (s : SyncManager) (files : list TFile) : nat :=
  List.length (filter (uploadAccepted s) files).

(** The state in which [syncAllFiles] starts to upload: the flag set, the
    download phase done when the sync is bidirectional. *)
Definition beforeUpload (s : SyncManager) : SyncManager :=
  snd ((if bidirectionalSync (settings s)
        then downloadRemoteChanges ;;; ret tt
        else ret tt) (started s)).

(** What an upload may change: the bucket and the notices. *)
Definition upload_frame (s s' : SyncManager) : Prop :=
  vault s' = vault s
  /\ settings s' = settings s
  /\ syncInProgress s' = syncInProgress s
  /\ failPutOf s' = failPutOf s
  /\ r2Service s' <> None
  /\ exists ns, notices s' = (notices s ++ ns)%list.

(** One timer is pending, set by the event [e]: the one [syncTimeout]
    names, carrying the current token, not due before the delay after [e]
    has passed. *)
Definition pendingFor (p : R2SyncPlugin) (e : ChangeEvent) : Prop :=
  exists t,
    timers p = [t]
    /\ syncTimeout p = Some (handle t)
    /\ handle t <> 0
    /\ nextHandle p <> 0
    /\ currentId t = debounceId p
    /\ timerFile t = changed e
    /\ (at_ e + syncDelay p * 1000 <= due t)%Z.

(** The object the bucket holds under [k], as the client sees it. *)
Definition objAt (k : string) (s : SyncManager) : option R2Object :=
  match r2Service s with
  | Some r => getObject k (objects r)
  | None => None
  end.

(** Well-formed UTF-8, by the table of the Unicode standard: the bytes of
    the encoding of some JavaScript string without lone surrogates. *)
Fixpoint wellFormed (s : string) : bool :=
  match s with
  | EmptyString => true
  | String c rest =>
      let n := nat_of_ascii c in
      if (n <? 128)%nat then wellFormed rest
      else if ((194 <=? n) && (n <=? 223))%nat then
        match rest with
        | String c1 r1 => TextDecoder.inRange 128 191 c1 && wellFormed r1
        | _ => false
        end
      else if ((224 <=? n) && (n <=? 239))%nat then
        match rest with
        | String c1 (String c2 r2) =>
            TextDecoder.inRange (TextDecoder.lowerAfter n)
                                (TextDecoder.upperAfter n) c1
            && TextDecoder.inRange 128 191 c2 && wellFormed r2
        | _ => false
        end
      else if ((240 <=? n) && (n <=? 244))%nat then
        match rest with
        | String c1 (String c2 (String c3 r3)) =>
            TextDecoder.inRange (TextDecoder.lowerAfter n)
                                (TextDecoder.upperAfter n) c1
            && TextDecoder.inRange 128 191 c2
            && TextDecoder.inRange 128 191 c3 && wellFormed r3
        | _ => false
        end
      else false
  end.





(** The members of an object after its opening brace, as [JSON.readValue]
    reads them with the fuel [fuel] for their values. *)
Definition readMembers (fuel : nat)
  : nat -> list (string * JSON.Value) -> string
    -> option (list (string * JSON.Value) * string) :=
  fix readMembers (n : nat) (acc : list (string * JSON.Value))
    (s : string) {struct n} : option (list (string * JSON.Value) * string) :=
    match n with
    | O => None
    | S n' =>
        match JSON.skipWs s with
        | String q r =>
            if Ascii.eqb q JSON.dquote then
              match JSON.readString r with
              | Some (k, r1) =>
                  match JSON.skipWs r1 with
                  | String ":" r2 =>
                      match JSON.readValue fuel r2 with
                      | Some (v, r3) =>
                          match JSON.skipWs r3 with
                          | String "," r4 =>
                              readMembers n' (acc ++ [(k, v)])%list r4
                          | String "}" r4 => Some ((acc ++ [(k, v)])%list, r4)
                          | _ => None
                          end
                      | None => None
                      end
                  | _ => None
                  end
              | None => None
              end
            else None
        | EmptyString => None
        end
    end.

(* ================================================================== *)
(** ** Lemmas on the string primitives *)

Lemma startsWith_app (p s : string) : JS.startsWith (p ++ s) p = true.
Proof.
  induction p as [|c p IH]; simpl.
  - reflexivity.
  - rewrite Ascii.eqb_refl. exact IH.
Qed.

Lemma substring_app (p s : string) :
  JS.substring (p ++ s) (String.length p) = s.
Proof.
  induction p as [|c p IH]; simpl; [reflexivity | exact IH].
Qed.

Lemma append_assoc (a b c : string) : (a ++ b) ++ c = a ++ (b ++ c).
Proof.
  induction a as [|x a IH]; simpl; [reflexivity | now rewrite IH].
Qed.

Lemma length_append (a b : string) :
  String.length (a ++ b) = String.length a + String.length b.
Proof.
  induction a as [|x a IH]; simpl; [reflexivity | now rewrite IH].
Qed.

Lemma truthy_true (s : string) : s <> "" -> JS.truthy s = true.
Proof. destruct s; [congruence | reflexivity]. Qed.

Lemma or_truthy (a b : string) : a <> "" -> JS.or a b = a.
Proof. intros H. unfold JS.or. now rewrite truthy_true. Qed.

Lemma or_empty (b : string) : JS.or "" b = b.
Proof. reflexivity. Qed.

Lemma length_slash (b : string) :
  String.length (b ++ "/") = String.length b + 1.
Proof. rewrite length_append. reflexivity. Qed.

(** Stripping [b ++ "/"] from a path that starts with it. *)
Lemma strip_base (b s : string) :
  JS.substring (b ++ "/" ++ s) (String.length b + 1) = s.
Proof.
  rewrite <- length_slash, <- append_assoc. apply substring_app.
Qed.

Lemma startsWith_base (b s : string) :
  JS.startsWith (b ++ "/" ++ s) (b ++ "/") = true.
Proof. rewrite <- append_assoc. apply startsWith_app. Qed.

(** [substring] never makes a string longer. *)
Lemma substring_length_le (s : string) (n : nat) :
  String.length (JS.substring s n) <= String.length s.
Proof.
  revert s; induction n as [|n IH]; intros s; simpl; [lia|].
  destruct s as [|c s]; simpl; [lia|]. specialize (IH s). lia.
Qed.

(* ================================================================== *)
(** ** Path/key mapping: what holds *)

(** With a non-empty configured base folder [b] and a path [b/s], the key is
    [s]. *)
Lemma getFileKey_under_base (v b s nm ext : string) :
  b <> "" ->
  getFileKey v b (mkTFile (b ++ "/" ++ s) nm ext) = s.
Proof.
  intros Hb. unfold getFileKey. cbn [path].
  rewrite (or_truthy b v Hb), (truthy_true b Hb), startsWith_base.
  cbn [andb]. apply strip_base.
Qed.




(** The local path of a key is never longer than the key. *)
Lemma getLocalPathFromKey_length (v b k : string) :
  String.length (getLocalPathFromKey v b k) <= String.length k.
Proof.
  unfold getLocalPathFromKey.
  destruct (JS.startsWith k _).
  - apply substring_length_le.
  - destruct (String.eqb k _); simpl; lia.
Qed.

(** Under a non-empty base folder [b], the way to a key and back never
    gives [b/s] again: the result is no longer than [s]. *)
Lemma roundtrip_under_base_shorter (v b s nm ext : string) :
  b <> "" ->
  String.length
    (getLocalPathFromKey v b (getFileKey v b (mkTFile (b ++ "/" ++ s) nm ext)))
  < String.length (b ++ "/" ++ s).
Proof.
  intros Hb. rewrite getFileKey_under_base by assumption.
  pose proof (getLocalPathFromKey_length v b s) as H.
  rewrite !length_append. simpl. lia.
Qed.




(** C6, as stated, fails: with no base folder configured and the vault
    named [MyVault], the key of [notes/a.md] is [MyVault/notes/a.md], and
    the local path of that key is [notes/a.md]: neither mapping is the
    identity. *)
Lemma empty_baseFolder_not_identity :
  getFileKey "MyVault" "" (mkTFile "notes/a.md" "a.md" "md") <> "notes/a.md"
  /\ getLocalPathFromKey "MyVault" "" "MyVault/notes/a.md"
     <> "MyVault/notes/a.md".
Proof. split; discriminate. Qed.

Lemma startsWith_split (s p : string) :
  JS.startsWith s p = true -> s = p ++ JS.substring s (String.length p).
Proof.
  revert s. induction p as [|c p IH]; intros s H; cbn in *.
  - reflexivity.
  - destruct s as [|d s]; [discriminate|].
    destruct (Ascii.eqb_spec d c) as [->|_]; [|discriminate].
    cbn. f_equal. now apply IH.
Qed.

(** The key of a path under the base folder, and of a path outside it,
    whatever part of the settings the base folder comes from. *)
Lemma getFileKey_under (v sb : string) (file : TFile) :
  let b := JS.or sb v in
  b <> "" -> JS.startsWith (path file) (b ++ "/") = true ->
  path file = b ++ "/" ++ getFileKey v sb file.
Proof.
  intros b Hb Hp. unfold getFileKey. fold b.
  rewrite (truthy_true b Hb), Hp. cbn [andb].
  rewrite <- length_slash.
  rewrite (startsWith_split _ _ Hp) at 1. now rewrite append_assoc.
Qed.

Lemma getFileKey_outside (v sb : string) (file : TFile) :
  let b := JS.or sb v in
  b <> "" -> JS.startsWith (path file) (b ++ "/") = false -> path file <> b ->
  getFileKey v sb file = b ++ "/" ++ path file.
Proof.
  intros b Hb Hp Hne. unfold getFileKey. fold b.
  rewrite (truthy_true b Hb), Hp. cbn [andb].
  destruct (String.eqb_spec (path file) b); [contradiction | reflexivity].
Qed.

Lemma startsWith_length (s p : string) :
  JS.startsWith s p = true -> String.length p <= String.length s.
Proof.
  revert s. induction p as [|c p IH]; intros s H; cbn in *; [lia|].
  destruct s as [|d s]; [discriminate|].
  destruct (Ascii.eqb d c); [|discriminate].
  specialize (IH s H). cbn. lia.
Qed.

(** With no base folder configured and the vault named [v], the files whose
    key is their path: all of them when [v] is empty, and otherwise only a
    file named [v] at the path [v]. *)
Lemma getFileKey_is_path (v : string) (f : TFile) :
  getFileKey v "" f = path f <-> v = "" \/ (path f = v /\ name f = v).
Proof.
  destruct (string_dec v "") as [->|Hv].
  - split; [now left | reflexivity].
  - assert (Hb : JS.or "" v <> "") by (now rewrite or_empty).
    split.
    + intros H. right.
      destruct (JS.startsWith (path f) (v ++ "/")) eqn:Hp.
      * pose proof (getFileKey_under v "" f Hb Hp) as Hu. rewrite H in Hu.
        cbv zeta in Hu. rewrite or_empty in Hu.
        apply (f_equal String.length) in Hu.
        rewrite !length_append in Hu. cbn in Hu. lia.
      * destruct (string_dec (path f) v) as [E|E].
        -- split; [exact E|].
           assert (Hk : getFileKey v "" f = name f).
           { unfold getFileKey. rewrite or_empty, (truthy_true v Hv), Hp.
             cbn [andb]. rewrite E, String.eqb_refl. reflexivity. }
           congruence.
        -- pose proof (getFileKey_outside v "" f Hb Hp E) as Ho.
           cbv zeta in Ho. rewrite or_empty, H in Ho.
           apply (f_equal String.length) in Ho.
           rewrite !length_append in Ho. cbn in Ho. lia.
    + intros [E|[Ep En]]; [contradiction|].
      unfold getFileKey. rewrite or_empty, (truthy_true v Hv).
      assert (Hp : JS.startsWith (path f) (v ++ "/") = false).
      { destruct (JS.startsWith (path f) (v ++ "/")) eqn:Hp; [|reflexivity].
        apply startsWith_length in Hp. rewrite length_slash, Ep in Hp. lia. }
      rewrite Hp. cbn [andb]. rewrite Ep, String.eqb_refl. cbn [andb].
      exact En.
Qed.

(** C6 (amended): when the configured base folder is empty the vault name
    stands in for it, in both mappings, and a path outside the folder of
    that name gets the key [<vault name>/<path>].  The path-to-key mapping
    is the identity exactly when the vault name is empty too (with a vault
    name [v] that is not empty, the only file whose key is its path is a
    file named [v] at the path [v]); and with an empty vault name the
    key-to-path mapping is the identity on the keys that do not start with
    a slash, and on no other. *)
Theorem empty_baseFolder_is_vaultName (v : string) (f : TFile) (k : string) :
  getFileKey v "" f = getFileKey v v f
  /\ getLocalPathFromKey v "" k = getLocalPathFromKey v v k
  /\ (v <> "" -> JS.startsWith (path f) (v ++ "/") = false -> path f <> v ->
      getFileKey v "" f = v ++ "/" ++ path f)
  /\ (getFileKey v "" f = path f <-> v = "" \/ (path f = v /\ name f = v))
  /\ ((forall f', getFileKey v "" f' = path f') <-> v = "")
  /\ (v = "" ->
      (getLocalPathFromKey v "" k = k <-> JS.startsWith k "/" = false)).
Proof.
  split; [|split; [|split; [|split; [|split]]]].
  - unfold getFileKey. rewrite or_empty.
    destruct v; reflexivity.
  - unfold getLocalPathFromKey. rewrite or_empty.
    destruct v; reflexivity.
  - intros Hv Hp Hne.
    assert (Hb : JS.or "" v <> "") by (now rewrite or_empty).
    pose proof (getFileKey_outside v "" f Hb Hp Hne) as Ho.
    cbv zeta in Ho. now rewrite or_empty in Ho.
  - apply getFileKey_is_path.
  - split.
    + intros Hall.
      destruct (proj1 (getFileKey_is_path v (mkTFile "" "x" "")) (Hall _))
        as [E|[E1 E2]]; [exact E|].
      cbn [path name] in E1, E2. congruence.
    + intros -> f'. reflexivity.
  - intros ->. unfold getLocalPathFromKey. cbn [JS.or JS.truthy].
    change ("" ++ "/") with "/".
    destruct (JS.startsWith k "/") eqn:Hk.
    + split; [|discriminate]. intros H.
      apply (f_equal String.length) in H.
      destruct k as [|c k]; [discriminate Hk|].
      cbn [String.length Nat.add JS.substring] in H. lia.
    + split; [reflexivity|]. intros _.
      destruct (String.eqb_spec k "") as [->|_]; reflexivity.
Qed.

Lemma empty_baseFolder_is_vaultName_witness :
  getFileKey "MyVault" "" (mkTFile "notes/a.md" "a.md" "md")
  = "MyVault" ++ "/" ++ "notes/a.md"
  /\ getFileKey "MyVault" "" (mkTFile "notes/a.md" "a.md" "md") <> "notes/a.md"
  /\ getFileKey "" "" (mkTFile "notes/a.md" "a.md" "md") = "notes/a.md"
  /\ getLocalPathFromKey "" "" "notes/a.md" = "notes/a.md".
Proof.
  destruct (empty_baseFolder_is_vaultName "MyVault"
              (mkTFile "notes/a.md" "a.md" "md") "MyVault/notes/a.md")
    as (_ & _ & H3 & H4 & _).
  destruct (empty_baseFolder_is_vaultName "" (mkTFile "notes/a.md" "a.md" "md")
              "notes/a.md") as (_ & _ & _ & H4' & _ & H6).
  split; [|split; [|split]].
  - apply H3; [discriminate | reflexivity | discriminate].
  - intros H. apply H4 in H. destruct H as [H|[H _]]; discriminate H.
  - apply H4'. now left.
  - apply (H6 eq_refl). reflexivity.
Defined.

(* ================================================================== *)
(** ** The guard of [syncFile] *)

(** C8: a call of [syncFile] while a pass is in flight, or with no client
    of the object store, returns [false] and leaves the whole state as it
    was: the vault, the bucket, the settings with [lastSyncTime], the
    notices. *)
Theorem syncFile_guard (now : string) (file : TFile) (s : SyncManager) :
  syncInProgress s = true \/ r2Service s = None ->
  syncFile now file s = (Normal false, s).
Proof.
  intros H. unfold syncFile, bind, gets, no_service.
  destruct H as [H|H]; rewrite H; cbn.
  - reflexivity.
  - now rewrite orb_true_r.
Qed.

Lemma syncFile_guard_witness :
  let busy :=
    mkSyncManager (mkVault "MyVault" ".obsidian"
                     [(mkTFile "a.md" "a.md" "md", "hello")] [] [])
                  (Some (mkR2 [] [] [] [] []))
                  (mkSettings "" true false 30 "" true) true [] in
  syncFile "2026-11-03T00:00:00.000Z" (mkTFile "a.md" "a.md" "md") busy
  = (Normal false, busy).
Proof.
  intros busy.
  apply (syncFile_guard "2026-11-03T00:00:00.000Z" (mkTFile "a.md" "a.md" "md") busy).
  left. reflexivity.
Defined.

(* ================================================================== *)
(** ** What a method leaves unchanged *)

Section Keeps.
Context {X : Type} (proj : SyncManager -> X).

Lemma keeps_ret {A} (a : A) : keeps proj (ret a).
Proof. intros s. reflexivity. Qed.

Lemma keeps_throw {A} (e : string) : keeps proj (@throw A e).
Proof. intros s. reflexivity. Qed.

Lemma keeps_gets {A} (f : SyncManager -> A) : keeps proj (gets f).
Proof. intros s. reflexivity. Qed.

Lemma keeps_bind {A B} (m : M A) (k : A -> M B) :
  keeps proj m -> (forall a, keeps proj (k a)) -> keeps proj (bind m k).
Proof.
  intros Hm Hk s. unfold bind. specialize (Hm s).
  destruct (m s) as [[a|e] s']; cbn in *.
  - rewrite Hk. exact Hm.
  - exact Hm.
Qed.

Lemma keeps_try_catch {A} (body handler : M A) :
  keeps proj body -> keeps proj handler -> keeps proj (try_catch body handler).
Proof.
  intros Hb Hh s. unfold try_catch. specialize (Hb s).
  destruct (body s) as [[a|e] s']; cbn in *.
  - exact Hb.
  - rewrite Hh. exact Hb.
Qed.

Lemma keeps_try_finally {A} (body : M A) (fin : M unit) :
  keeps proj body -> keeps proj fin -> keeps proj (try_finally body fin).
Proof.
  intros Hb Hf s. unfold try_finally. specialize (Hb s).
  destruct (body s) as [c s']. specialize (Hf s').
  destruct (fin s') as [[u|e] s'']; cbn in *; congruence.
Qed.

Lemma keeps_for_of {A S} (l : list A) (step : A -> S -> M S) :
  (forall x acc, keeps proj (step x acc)) ->
  forall acc, keeps proj (for_of l acc step).
Proof.
  intros Hstep. induction l as [|x l IH]; intros acc; cbn [for_of].
  - apply keeps_ret.
  - apply keeps_bind; [apply Hstep | intros a; apply IH].
Qed.

Lemma keeps_with_r2 {A} (f : R2 -> M A) :
  (forall r, keeps proj (f r)) -> keeps proj (with_r2 f).
Proof.
  intros Hf s. unfold with_r2. destruct (r2Service s) as [r|].
  - apply Hf.
  - reflexivity.
Qed.

Lemma keeps_if {A} (b : bool) (m1 m2 : M A) :
  keeps proj m1 -> keeps proj m2 -> keeps proj (if b then m1 else m2).
Proof. destruct b; auto. Qed.

(** A change of the state that [proj] does not see. *)
Lemma keeps_modify_state (f : SyncManager -> SyncManager) :
  (forall s, proj (f s) = proj s) -> keeps proj (modify_state f).
Proof. intros H s. apply H. Qed.

End Keeps.

Lemma keeps_read {X} (proj : SyncManager -> X) (file : TFile) :
  keeps proj (vault_read file).
Proof.
  intros s. unfold vault_read.
  destruct (JS.mem _ _); [reflexivity|].
  destruct (lookupFile _ _) as [[? ?]|]; reflexivity.
Qed.

Lemma keeps_readFileContentWithType {X} (proj : SyncManager -> X) (file : TFile) :
  keeps proj (readFileContentWithType file).
Proof.
  unfold readFileContentWithType, vault_readBinary.
  repeat apply keeps_if;
    (apply keeps_bind; [apply keeps_read | intros; apply keeps_ret]).
Qed.

Lemma keeps_r2_downloadFile {X} (proj : SyncManager -> X) (key : string) :
  keeps proj (r2_downloadFile key).
Proof. apply keeps_with_r2. intros r. apply keeps_ret. Qed.

Lemma keeps_r2_listFiles {X} (proj : SyncManager -> X) (prefix : string) :
  keeps proj (r2_listFiles prefix).
Proof. apply keeps_with_r2. intros r. apply keeps_ret. Qed.

Lemma keeps_notice {X} (proj : SyncManager -> X) (n : Notice) :
  notice_blind proj -> keeps proj (notice n).
Proof. intros H s. apply H. Qed.

Lemma keeps_set_vault {X} (proj : SyncManager -> X) (v : Vault) :
  vault_blind proj -> keeps proj (set_vault v).
Proof. intros H s. apply H. Qed.

Lemma keeps_set_r2 {X} (proj : SyncManager -> X) (r : R2) :
  r2_blind proj -> keeps proj (set_r2 r).
Proof. intros H s. apply H. Qed.

Lemma keeps_modify {X} (proj : SyncManager -> X) (file : TFile) (data : string) :
  vault_blind proj -> keeps proj (vault_modify file data).
Proof.
  intros H s. unfold vault_modify.
  destruct (lookupFile _ _); [apply H | reflexivity].
Qed.

Lemma keeps_createFolder {X} (proj : SyncManager -> X) (p : string) :
  vault_blind proj -> keeps proj (vault_createFolder p).
Proof.
  intros H s. unfold vault_createFolder.
  destruct (getAbstractFileByPath _ _); [reflexivity | apply H].
Qed.

Lemma keeps_create {X} (proj : SyncManager -> X) (p data : string) :
  vault_blind proj -> keeps proj (vault_create p data).
Proof.
  intros H s. unfold vault_create.
  destruct (getAbstractFileByPath _ _); [reflexivity|].
  destruct (_ && _); [reflexivity | apply H].
Qed.

(** The frame of a method follows its text: one rule for each construct
    of the monad, the matches taken apart. *)
Ltac keeps_step :=
  match goal with
  | |- keeps _ (ret _) => apply keeps_ret
  | |- keeps _ (gets _) => apply keeps_gets
  | |- keeps _ (bind _ _) => apply keeps_bind; [|intro]
  | |- keeps _ (try_catch _ _) => apply keeps_try_catch
  | |- keeps _ (try_finally _ _) => apply keeps_try_finally
  | |- keeps _ (with_r2 _) => apply keeps_with_r2; intro
  | |- keeps _ (for_of _ _ _) => apply keeps_for_of; intros
  | |- keeps _ (vault_read _) => apply keeps_read
  | |- keeps _ (readFileContentWithType _) => apply keeps_readFileContentWithType
  | |- keeps _ (r2_downloadFile _) => apply keeps_r2_downloadFile
  | |- keeps _ (r2_listFiles _) => apply keeps_r2_listFiles
  | |- keeps _ (notice _) => apply keeps_notice; assumption
  | |- keeps _ (set_r2 _) => apply keeps_set_r2; assumption
  | |- keeps _ (vault_modify _ _) => apply keeps_modify; assumption
  | |- keeps _ (vault_createFolder _) => apply keeps_createFolder; assumption
  | |- keeps _ (vault_create _ _) => apply keeps_create; assumption
  | |- keeps _ (if _ then _ else _) => apply keeps_if
  | |- keeps _ (match ?x with _ => _ end) => destruct x
  end.

Ltac keeps_tac := repeat keeps_step.

Lemma keeps_r2_uploadFile {X} (proj : SyncManager -> X) (key c t : string) :
  notice_blind proj -> r2_blind proj -> keeps proj (r2_uploadFile key c t).
Proof. intros Hn Hr. unfold r2_uploadFile. keeps_tac. Qed.

Lemma keeps_downloadRemoteKey {X} (proj : SyncManager -> X)
  (remoteKey : string) (counts : nat * nat) :
  vault_blind proj -> keeps proj (downloadRemoteKey remoteKey counts).
Proof.
  intros Hv. unfold downloadRemoteKey, localPathFromKey. keeps_tac.
Qed.

Lemma keeps_downloadRemoteChanges {X} (proj : SyncManager -> X) :
  vault_blind proj -> notice_blind proj -> keeps proj downloadRemoteChanges.
Proof.
  intros Hv Hn. unfold downloadRemoteChanges, downloadRemoteChanges_body.
  keeps_tac. now apply keeps_downloadRemoteKey.
Qed.

Lemma keeps_uploadOne {X} (proj : SyncManager -> X) (file : TFile) (n : nat) :
  notice_blind proj -> r2_blind proj -> keeps proj (uploadOne file n).
Proof.
  intros Hn Hr. unfold uploadOne, fileKey. keeps_tac.
  now apply keeps_r2_uploadFile.
Qed.

Lemma lastSync_vault_blind : vault_blind lastSync.
Proof. intros s v. reflexivity. Qed.

Lemma lastSync_notice_blind : notice_blind lastSync.
Proof. intros s n. reflexivity. Qed.

Lemma lastSync_r2_blind : r2_blind lastSync.
Proof. intros s r. reflexivity. Qed.

Lemma keeps_lastSync_set_syncInProgress (b : bool) :
  keeps lastSync (set_syncInProgress b).
Proof. intros s. reflexivity. Qed.

(* ================================================================== *)
(** ** The shape shared by [syncFile], [syncAllFiles], [syncMissingFiles] *)

Lemma syncFile_pass (now : string) (file : TFile) :
  syncFile now file = pass (syncFile_body now file) (NSyncError (name file)).
Proof. reflexivity. Qed.

Lemma syncAllFiles_pass (now : string) :
  syncAllFiles now = pass (syncAllFiles_body now) NBulkError.
Proof. reflexivity. Qed.

Lemma syncMissingFiles_pass (now : string) :
  syncMissingFiles now = pass (syncMissingFiles_body now) NMissingError.
Proof. reflexivity. Qed.

Lemma no_service_false (s : SyncManager) :
  r2Service s <> None -> no_service s = false.
Proof. unfold no_service. destruct (r2Service s); congruence. Qed.

Lemma pass_rejected (body : M bool) (err : Notice) (s : SyncManager) :
  syncInProgress s = true \/ r2Service s = None ->
  pass body err s = (Normal false, s).
Proof.
  intros H. unfold pass, bind, gets, no_service.
  destruct H as [H|H]; rewrite H; cbn; [reflexivity | now rewrite orb_true_r].
Qed.

Lemma pass_run (body : M bool) (err : Notice) (s : SyncManager) :
  syncInProgress s = false -> r2Service s <> None ->
  pass body err s =
    match body (started s) with
    | (Normal b, s') => (Normal b, finished s')
    | (Abrupt _, s') => (Normal false, finished (noticed err s'))
    end.
Proof.
  intros H1 H2. unfold pass, bind at 1, gets.
  rewrite H1, (no_service_false s H2). cbn [orb].
  unfold bind at 1. cbn [set_syncInProgress modify_state].
  unfold try_finally, try_catch, started. cbn [set_syncInProgress modify_state snd].
  destruct (body _) as [[b|e] s']; reflexivity.
Qed.

Lemma lastSync_finished (s : SyncManager) : lastSync (finished s) = lastSync s.
Proof. reflexivity. Qed.

Lemma lastSync_started (s : SyncManager) : lastSync (started s) = lastSync s.
Proof. reflexivity. Qed.

Lemma lastSync_noticed (n : Notice) (s : SyncManager) :
  lastSync (noticed n s) = lastSync s.
Proof. reflexivity. Qed.

(* ================================================================== *)
(** ** When [lastSyncTime] changes *)

Lemma bind_eq {A B} (m : M A) (k : A -> M B) (s : SyncManager) :
  bind m k s = match m s with
               | (Normal a, s') => k a s'
               | (Abrupt e, s') => (Abrupt e, s')
               end.
Proof. reflexivity. Qed.

Lemma gets_eq {A} (f : SyncManager -> A) (s : SyncManager) :
  gets f s = (Normal (f s), s).
Proof. reflexivity. Qed.

Lemma fileKey_eq (file : TFile) (s : SyncManager) :
  fileKey file s
  = (Normal (getFileKey (vaultName (vault s)) (baseFolder (settings s)) file), s).
Proof. reflexivity. Qed.

Lemma notice_eq (n : Notice) (s : SyncManager) :
  notice n s = (Normal tt, noticed n s).
Proof. reflexivity. Qed.

Lemma ret_eq {A} (a : A) (s : SyncManager) : ret a s = (Normal a, s).
Proof. reflexivity. Qed.

(** [syncFile]'s [try] block ends with [true], or leaves [lastSyncTime]
    alone. *)
Lemma syncFile_body_lastSync (now : string) (file : TFile) (s : SyncManager) :
  fst (syncFile_body now file s) = Normal true
  \/ lastSync (snd (syncFile_body now file s)) = lastSync s.
Proof.
  unfold syncFile_body. rewrite bind_eq.
  pose proof (keeps_readFileContentWithType lastSync file s) as H1.
  destruct (readFileContentWithType file s) as [[ct|e] s1]; cbn [snd] in H1;
    [|right; exact H1].
  rewrite bind_eq, fileKey_eq, bind_eq.
  pose proof (keeps_r2_uploadFile lastSync
                (getFileKey (vaultName (vault s1)) (baseFolder (settings s1)) file)
                (fst ct) (snd ct) lastSync_notice_blind lastSync_r2_blind s1) as H2.
  destruct (r2_uploadFile _ _ _ s1) as [[ok|e] s2]; cbn [snd] in H2;
    [|right; cbn [snd]; congruence].
  destruct ok.
  - left. reflexivity.
  - right. rewrite bind_eq, notice_eq, ret_eq. cbn [snd].
    rewrite lastSync_noticed. congruence.
Qed.

(** [syncAllFiles]'s [try] block: ended normally, [lastSyncTime] is [now];
    ended by an error, it is unchanged. *)
Lemma syncAllFiles_body_lastSync (now : string) (s : SyncManager) :
  match syncAllFiles_body now s with
  | (Normal _, s') => lastSync s' = now
  | (Abrupt _, s') => lastSync s' = lastSync s
  end.
Proof.
  unfold syncAllFiles_body. rewrite bind_eq, gets_eq, bind_eq.
  set (pre := if bidirectionalSync (settings s) then _ else _).
  assert (Hpre : keeps lastSync pre).
  { unfold pre. apply keeps_if; [|apply keeps_ret].
    apply keeps_bind; [|intros; apply keeps_ret].
    apply keeps_downloadRemoteChanges;
      [apply lastSync_vault_blind | apply lastSync_notice_blind]. }
  specialize (Hpre s). destruct (pre s) as [[u|e] s1]; cbn [snd] in Hpre;
    [|exact Hpre].
  rewrite bind_eq, gets_eq, bind_eq, notice_eq, bind_eq.
  match goal with |- context [for_of ?l ?a ?f ?st] =>
    pose proof (keeps_for_of lastSync l f
                  (fun x acc => keeps_uploadOne lastSync x acc
                                  lastSync_notice_blind lastSync_r2_blind) a st) as H;
    destruct (for_of l a f st) as [[k|e] s2]
  end; cbn [snd] in H.
  - rewrite bind_eq. cbn [set_lastSyncTime modify_state].
    rewrite bind_eq. destruct (_ =? _)%nat; reflexivity.
  - rewrite H, lastSync_noticed. exact Hpre.
Qed.

(** The same for [syncMissingFiles]. *)
Lemma keeps_uploadMissing {X} (proj : SyncManager -> X) (remoteSet : list string)
  (file : TFile) (n : nat) :
  notice_blind proj -> r2_blind proj ->
  keeps proj (uploadMissing remoteSet file n).
Proof.
  intros Hn Hr. unfold uploadMissing, fileKey. keeps_tac.
  now apply keeps_r2_uploadFile.
Qed.

Lemma syncMissingFiles_body_lastSync (now : string) (s : SyncManager) :
  match syncMissingFiles_body now s with
  | (Normal _, s') => lastSync s' = now
  | (Abrupt _, s') => lastSync s' = lastSync s
  end.
Proof.
  unfold syncMissingFiles_body. rewrite bind_eq, gets_eq, bind_eq, gets_eq, bind_eq.
  pose proof (keeps_r2_listFiles lastSync
                (JS.or (baseFolder (settings s)) (vaultName (vault s))) s) as H0.
  destruct (r2_listFiles _ s) as [[keys|e] s1]; cbn [snd] in H0; [|exact H0].
  rewrite bind_eq.
  match goal with |- context [for_of ?l ?a ?f ?st] =>
    pose proof (keeps_for_of lastSync l f
                  (fun x acc => keeps_uploadMissing lastSync keys x acc
                                  lastSync_notice_blind lastSync_r2_blind) a st) as H;
    destruct (for_of l a f st) as [[k|e] s2]
  end; cbn [snd] in H.
  - rewrite bind_eq. cbn [set_lastSyncTime modify_state].
    rewrite bind_eq. destruct (_ <? _)%nat; reflexivity.
  - congruence.
Qed.

Lemma pass_updates_on_completion (now : string) (body : M bool) (err : Notice)
  (s : SyncManager) :
  (forall s0, match body s0 with
              | (Normal _, s') => lastSync s' = now
              | (Abrupt _, s') => lastSync s' = lastSync s0
              end) ->
  updates_on_completion now body (pass body err) s.
Proof.
  intros Hbody. repeat split.
  - intros H. now rewrite pass_rejected.
  - intros e s' Hrun.
    destruct (syncInProgress s) eqn:Hb;
      [rewrite pass_rejected by (now left); reflexivity|].
    destruct (r2Service s) as [r|] eqn:Hr;
      [|rewrite pass_rejected by (now right); reflexivity].
    rewrite pass_run by congruence. specialize (Hbody (started s)).
    rewrite Hrun in *. cbn [snd].
    now rewrite lastSync_finished, lastSync_noticed, Hbody.
  - rewrite pass_run by assumption. now rewrite H1.
  - rewrite pass_run by assumption. specialize (Hbody (started s)).
    rewrite H1 in *. cbn [snd]. now rewrite lastSync_finished.
Qed.

Lemma downloadAndSync_lastSync (s : SyncManager) :
  lastSync (snd (downloadAndSync s)) = lastSync s.
Proof.
  revert s. change (keeps lastSync downloadAndSync). unfold downloadAndSync.
  apply keeps_bind; [apply keeps_gets | intros off].
  apply keeps_if; [apply keeps_ret|].
  apply keeps_bind; [apply keeps_lastSync_set_syncInProgress | intros _].
  apply keeps_try_finally; [|apply keeps_lastSync_set_syncInProgress].
  apply keeps_try_catch.
  - apply keeps_downloadRemoteChanges;
      [apply lastSync_vault_blind | apply lastSync_notice_blind].
  - apply keeps_bind; [apply keeps_notice, lastSync_notice_blind
                      | intros _; apply keeps_ret].
Qed.

(** C3, as stated, fails for [syncAllFiles]: with one file whose upload is
    refused, the pass returns [false], and [lastSyncTime], empty before, is
    the time of the pass after. *)
Lemma syncAllFiles_failed_upload_sets_lastSyncTime :
  let s :=
    mkSyncManager (mkVault "MyVault" ".obsidian"
                     [(mkTFile "a.md" "a.md" "md", "hello")] [] [])
                  (Some (mkR2 [] ["MyVault/a.md"] [] [] []))
                  (mkSettings "" false false 30 "" false) false [] in
  fst (syncAllFiles "2026-11-03T00:00:00.000Z" s) = Normal false
  /\ lastSync s = ""
  /\ lastSync (snd (syncAllFiles "2026-11-03T00:00:00.000Z" s))
     = "2026-11-03T00:00:00.000Z"
  /\ lastSync (snd (syncAllFiles "2026-11-03T00:00:00.000Z" s)) <> lastSync s.
Proof. repeat split. discriminate. Qed.

(** C3 (amended): [syncFile] changes [lastSyncTime] only in a call that
    returns [true]; [syncAllFiles] and [syncMissingFiles] leave it as it was
    when the guard rejects the call (busy, or no client) and when an error
    is thrown in the pass, and set it whenever the pass runs to its end,
    also when it returns [false] because no upload succeeded;
    [downloadAndSync] never changes it. *)
Theorem lastSyncTime_updates (now : string) (file : TFile) (s : SyncManager) :
  (fst (syncFile now file s) <> Normal true ->
   lastSync (snd (syncFile now file s)) = lastSync s)
  /\ updates_on_completion now (syncAllFiles_body now) (syncAllFiles now) s
  /\ updates_on_completion now (syncMissingFiles_body now)
       (syncMissingFiles now) s
  /\ lastSync (snd (downloadAndSync s)) = lastSync s.
Proof.
  split; [|split; [|split]].
  - rewrite syncFile_pass.
    destruct (syncInProgress s) eqn:Hb;
      [rewrite pass_rejected by (now left); reflexivity|].
    destruct (r2Service s) as [r|] eqn:Hr;
      [|rewrite pass_rejected by (now right); reflexivity].
    rewrite pass_run by congruence.
    destruct (syncFile_body_lastSync now file (started s)) as [H|H];
      destruct (syncFile_body now file (started s)) as [[b|e] s'];
      cbn [fst snd] in *.
    + intros Hne. congruence.
    + discriminate.
    + intros _. now rewrite lastSync_finished, H.
    + intros _. now rewrite lastSync_finished, lastSync_noticed, H.
  - rewrite syncAllFiles_pass. apply pass_updates_on_completion.
    apply syncAllFiles_body_lastSync.
  - rewrite syncMissingFiles_pass. apply pass_updates_on_completion.
    apply syncMissingFiles_body_lastSync.
  - apply downloadAndSync_lastSync.
Qed.

Lemma lastSyncTime_updates_witness :
  let file := mkTFile "a.md" "a.md" "md" in
  let s :=
    mkSyncManager (mkVault "MyVault" ".obsidian" [(file, "hello")] [] [])
                  (Some (mkR2 [] ["MyVault/a.md"] [] [] []))
                  (mkSettings "" false false 30 "2026-11-02T00:00:00.000Z" false)
                  false [] in
  lastSync (snd (syncFile "2026-11-03T00:00:00.000Z" file s))
  = "2026-11-02T00:00:00.000Z"
  /\ lastSync (snd (syncAllFiles "2026-11-03T00:00:00.000Z" s))
     = "2026-11-03T00:00:00.000Z".
Proof.
  intros file s.
  destruct (lastSyncTime_updates "2026-11-03T00:00:00.000Z" file s)
    as (H1 & (_ & _ & H2) & _).
  split.
  - apply H1. vm_compute. discriminate.
  - eapply H2.
    + reflexivity.
    + vm_compute. discriminate.
    + vm_compute. reflexivity.
Defined.

(* ================================================================== *)
(** ** What [syncAllFiles] returns *)

Lemma upload_frame_refl (s : SyncManager) :
  r2Service s <> None -> upload_frame s s.
Proof.
  intros H. repeat split; auto. exists []. now rewrite app_nil_r.
Qed.

Lemma upload_frame_trans (s1 s2 s3 : SyncManager) :
  upload_frame s1 s2 -> upload_frame s2 s3 -> upload_frame s1 s3.
Proof.
  intros (A1 & A2 & A3 & A4 & A5 & ns1 & A6) (B1 & B2 & B3 & B4 & B5 & ns2 & B6).
  repeat split; try congruence.
  exists (ns1 ++ ns2)%list. rewrite B6, A6. now rewrite app_assoc.
Qed.

Lemma uploadAccepted_frame (s s' : SyncManager) (file : TFile) :
  upload_frame s s' -> uploadAccepted s' file = uploadAccepted s file.
Proof.
  intros (A1 & A2 & _ & A4 & _). unfold uploadAccepted. now rewrite A1, A2, A4.
Qed.

Lemma vault_read_readable (file : TFile) (s : SyncManager) :
  readable (vault s) file = true ->
  exists c, vault_read file s = (Normal c, s).
Proof.
  unfold readable, vault_read. intros H.
  apply andb_true_iff in H as [H1 H2]. apply negb_true_iff in H1. rewrite H1.
  destruct (lookupFile _ _) as [[f c]|]; [now exists c | discriminate].
Qed.

Lemma vault_read_unreadable (file : TFile) (s : SyncManager) :
  readable (vault s) file = false ->
  exists e, vault_read file s = (Abrupt e, s).
Proof.
  unfold readable, vault_read. intros H.
  destruct (JS.mem _ _); [now eexists|].
  destruct (lookupFile _ _) as [[f c]|]; [discriminate | now eexists].
Qed.

Lemma readFileContentWithType_readable (file : TFile) (s : SyncManager) :
  readable (vault s) file = true ->
  exists ct, readFileContentWithType file s = (Normal ct, s).
Proof.
  intros H. destruct (vault_read_readable file s H) as [c Hc].
  unfold readFileContentWithType, vault_readBinary.
  repeat match goal with |- context [if ?b then _ else _] => destruct b end;
    rewrite bind_eq, Hc; eexists; reflexivity.
Qed.

Lemma readFileContentWithType_unreadable (file : TFile) (s : SyncManager) :
  readable (vault s) file = false ->
  exists e, readFileContentWithType file s = (Abrupt e, s).
Proof.
  intros H. destruct (vault_read_unreadable file s H) as [e He].
  unfold readFileContentWithType, vault_readBinary.
  repeat match goal with |- context [if ?b then _ else _] => destruct b end;
    rewrite bind_eq, He; eexists; reflexivity.
Qed.

Lemma r2_uploadFile_spec (key c t : string) (s : SyncManager) :
  r2Service s <> None ->
  exists s', r2_uploadFile key c t s
             = (Normal (negb (JS.mem key (failPutOf s))), s')
             /\ upload_frame s s'.
Proof.
  intros Hr. unfold r2_uploadFile, with_r2, failPutOf, uploadFile.
  destruct (r2Service s) as [r|] eqn:E; [|congruence].
  destruct (JS.mem key (failPut r)) eqn:Hm; cbn [negb].
  - eexists. split; [reflexivity|].
    unfold upload_frame, failPutOf. cbn. rewrite E.
    repeat split; try congruence. now eexists.
  - eexists. split; [reflexivity|].
    unfold upload_frame, failPutOf. cbn. rewrite E.
    repeat split; try congruence. exists []. now rewrite app_nil_r.
Qed.

Lemma uploadOne_readable (file : TFile) (n : nat) (s : SyncManager) :
  r2Service s <> None -> readable (vault s) file = true ->
  exists s', uploadOne file n s
             = (Normal (if uploadAccepted s file then S n else n), s')
             /\ upload_frame s s'.
Proof.
  intros Hr H. unfold uploadOne.
  destruct (readFileContentWithType_readable file s H) as [ct Hct].
  rewrite bind_eq, Hct, bind_eq, fileKey_eq, bind_eq.
  destruct (r2_uploadFile_spec
              (getFileKey (vaultName (vault s)) (baseFolder (settings s)) file)
              (fst ct) (snd ct) s Hr) as (s' & Hs' & Hf).
  rewrite Hs'. exists s'. split; [reflexivity | exact Hf].
Qed.

Lemma uploadOne_unreadable (file : TFile) (n : nat) (s : SyncManager) :
  readable (vault s) file = false ->
  exists e, uploadOne file n s = (Abrupt e, s).
Proof.
  intros H. unfold uploadOne.
  destruct (readFileContentWithType_unreadable file s H) as [e He].
  rewrite bind_eq, He. now exists e.
Qed.

(** The upload loop: it counts the accepted uploads when every file can be
    read, and is left by an error otherwise. *)
Lemma upload_loop (files : list TFile) :
  forall (n : nat) (s0 s : SyncManager),
    upload_frame s0 s ->
    (forallb (readable (vault s0)) files = true ->
     exists s', for_of files n uploadOne s = (Normal (n + accepted s0 files), s')
                /\ upload_frame s0 s')
    /\ (forallb (readable (vault s0)) files = false ->
        exists e s', for_of files n uploadOne s = (Abrupt e, s')).
Proof.
  induction files as [|f files IH]; intros n s0 s Hf.
  - split; [|discriminate]. intros _. exists s. cbn. split; [|exact Hf].
    rewrite ret_eq. f_equal. f_equal. unfold accepted. cbn. lia.
  - assert (Hv : vault s = vault s0) by apply Hf.
    assert (Hr : r2Service s <> None) by apply Hf.
    cbn [forallb for_of]. rewrite bind_eq.
    destruct (readable (vault s0) f) eqn:Hread.
    + rewrite <- Hv in Hread.
      destruct (uploadOne_readable f n s Hr Hread) as (s1 & H1 & Hf1).
      rewrite H1. rewrite (uploadAccepted_frame s0 s f Hf).
      pose proof (upload_frame_trans _ _ _ Hf Hf1) as Hf01.
      destruct (IH (if uploadAccepted s0 f then S n else n) s0 s1 Hf01)
        as [IHt IHf].
      cbn [andb]. split.
      * intros Hall. destruct (IHt Hall) as (s' & Hs' & Hfs').
        exists s'. split; [|exact Hfs']. rewrite Hs'. f_equal. f_equal.
        unfold accepted. cbn [filter].
        destruct (uploadAccepted s0 f); cbn [List.length]; lia.
      * intros Hall. exact (IHf Hall).
    + rewrite <- Hv in Hread.
      destruct (uploadOne_unreadable f n s Hread) as [e He]. rewrite He.
      cbn [andb]. split; [discriminate|]. intros _. now exists e, s.
Qed.

(** The download phase never throws: its [catch] returns [false]. *)
Lemma downloadRemoteChanges_normal (s : SyncManager) :
  exists b, fst (downloadRemoteChanges s) = Normal b.
Proof.
  unfold downloadRemoteChanges. rewrite bind_eq, gets_eq.
  destruct (_ || _); [now exists false|].
  unfold try_catch. destruct (downloadRemoteChanges_body s) as [[b|e] s'].
  - now exists b.
  - now exists false.
Qed.

Lemma r2Service_beforeUpload (s : SyncManager) :
  r2Service (beforeUpload s) = r2Service s.
Proof.
  unfold beforeUpload.
  assert (H : keeps r2Service
                (if bidirectionalSync (settings s)
                 then downloadRemoteChanges ;;; ret tt else ret tt)).
  { apply keeps_if; [|apply keeps_ret].
    apply keeps_bind; [|intros; apply keeps_ret].
    apply keeps_downloadRemoteChanges; intros ? ?; reflexivity. }
  rewrite H. reflexivity.
Qed.

(** The [try] block of [syncAllFiles], from the state where the upload
    starts. *)
Lemma syncAllFiles_body_run (now : string) (s : SyncManager) :
  r2Service s <> None ->
  let s1 := beforeUpload s in
  let files := getFilesToSync s1 in
  let total := List.length files in
  (forallb (readable (vault s1)) files = true ->
   exists s', syncAllFiles_body now (started s)
              = (Normal (0 <? accepted s1 files)%nat, s')
              /\ exists ns,
                   notices s'
                   = (ns ++ [if (accepted s1 files =? total)%nat
                             then NBulkAll total
                             else NBulkPartial (accepted s1 files) total])%list)
  /\ (forallb (readable (vault s1)) files = false ->
      exists e s', syncAllFiles_body now (started s) = (Abrupt e, s')).
Proof.
  intros Hr s1 files total.
  assert (Hpre : (if bidirectionalSync (settings (started s))
                  then downloadRemoteChanges ;;; ret tt else ret tt) (started s)
                 = (Normal tt, s1)).
  { unfold s1, beforeUpload. change (settings (started s)) with
      (mkSettings (baseFolder (settings s)) (bidirectionalSync (settings s))
         (enableBackups (settings s)) (backupRetentionDays (settings s))
         (lastSyncTime (settings s)) true).
    cbn [bidirectionalSync].
    destruct (bidirectionalSync (settings s)); [|reflexivity].
    rewrite bind_eq.
    destruct (downloadRemoteChanges_normal (started s)) as [b Hb].
    destruct (downloadRemoteChanges (started s)) as [c s'].
    cbn [fst] in Hb. subst c. reflexivity. }
  assert (Hf : upload_frame s1 (noticed (NBulkStart total) s1)).
  { repeat split; try reflexivity.
    - cbn. fold s1. unfold s1. rewrite r2Service_beforeUpload. exact Hr.
    - now eexists. }
  destruct (upload_loop files 0 s1 _ Hf) as [Ht Hfalse].
  unfold syncAllFiles_body.
  rewrite bind_eq, gets_eq, bind_eq, Hpre, bind_eq, gets_eq.
  fold files. fold total. rewrite bind_eq, notice_eq, bind_eq.
  split.
  - intros Hall. destruct (Ht Hall) as (s3 & Hs3 & _). rewrite Hs3.
    cbn [Nat.add]. rewrite bind_eq. cbn [set_lastSyncTime modify_state].
    rewrite bind_eq.
    destruct (accepted s1 files =? total)%nat;
      rewrite notice_eq, ret_eq; eexists; (split; [reflexivity|]);
      cbn; now eexists.
  - intros Hall. destruct (Hfalse Hall) as (e & s' & He). rewrite He.
    now exists e, s'.
Qed.

(** C7, as stated, fails: of two files the first is uploaded (its object
    is in the bucket afterwards, and was not before) and the second cannot
    be read; the error ends the pass, which returns [false]. *)
Lemma syncAllFiles_false_after_successful_upload :
  let s :=
    mkSyncManager (mkVault "MyVault" ".obsidian"
                     [(mkTFile "a.md" "a.md" "md", "hello");
                      (mkTFile "b.md" "b.md" "md", "world")] [] ["b.md"])
                  (Some (mkR2 [] [] [] [] []))
                  (mkSettings "" false false 30 "" false) false [] in
  let s' := snd (syncAllFiles "2026-11-03T00:00:00.000Z" s) in
  fst (syncAllFiles "2026-11-03T00:00:00.000Z" s) = Normal false
  /\ r2Service s' = Some (mkR2 [("MyVault/a.md", mkObject "hello" "text/markdown")]
                               [] [] [] [])
  /\ notices s' = [NBulkStart 2; NBulkError].
Proof. repeat split. Qed.

(** C7 (amended): a pass of [syncAllFiles] that the guard lets through
    returns [true] if and only if no error is thrown while the files are
    read and at least one upload succeeded; when no error is thrown, failed
    uploads are only counted, and the pass ends with the notice of all
    [total] files synced or of [accepted] out of [total]. *)
Theorem syncAllFiles_returns (now : string) (s : SyncManager) :
  syncInProgress s = false -> r2Service s <> None ->
  let s1 := beforeUpload s in
  let files := getFilesToSync s1 in
  let total := List.length files in
  fst (syncAllFiles now s)
  = Normal (forallb (readable (vault s1)) files && (0 <? accepted s1 files)%nat)
  /\ (forallb (readable (vault s1)) files = true ->
      exists ns,
        notices (snd (syncAllFiles now s))
        = (ns ++ [if (accepted s1 files =? total)%nat
                  then NBulkAll total
                  else NBulkPartial (accepted s1 files) total])%list).
Proof.
  intros Hb Hr s1 files total.
  rewrite syncAllFiles_pass, pass_run by assumption.
  destruct (syncAllFiles_body_run now s Hr) as [Ht Hf].
  fold s1 in Ht, Hf. fold files in Ht, Hf. fold total in Ht.
  destruct (forallb (readable (vault s1)) files) eqn:Hall.
  - destruct (Ht eq_refl) as (s' & Hs' & ns & Hns). rewrite Hs'.
    cbn [fst snd andb]. split; [reflexivity|]. intros _. exists ns. exact Hns.
  - destruct (Hf eq_refl) as (e & s' & He). rewrite He.
    cbn [fst andb]. split; [reflexivity | discriminate].
Qed.

Lemma syncAllFiles_returns_witness :
  let s :=
    mkSyncManager (mkVault "MyVault" ".obsidian"
                     [(mkTFile "a.md" "a.md" "md", "hello");
                      (mkTFile "b.md" "b.md" "md", "world")] [] [])
                  (Some (mkR2 [] ["MyVault/b.md"] [] [] []))
                  (mkSettings "" false false 30 "" false) false [] in
  fst (syncAllFiles "2026-11-03T00:00:00.000Z" s) = Normal true
  /\ exists ns,
       notices (snd (syncAllFiles "2026-11-03T00:00:00.000Z" s))
       = (ns ++ [NBulkPartial 1 2])%list.
Proof.
  intros s.
  destruct (syncAllFiles_returns "2026-11-03T00:00:00.000Z" s) as [H1 H2].
  - reflexivity.
  - discriminate.
  - split; [exact H1 | apply H2; reflexivity].
Defined.

(* ================================================================== *)
(** ** Debounce: only the last change of a quiet window is synced *)

Lemma clearTimeout_single (t : Timer) : clearTimeout (handle t) [t] = [].
Proof. unfold clearTimeout. cbn. now rewrite Nat.eqb_refl. Qed.

(** The first event after a rest: nothing is pending, a timer is set. *)
Lemma onChange_idle (e : ChangeEvent) (p : R2SyncPlugin) :
  timers p = [] -> nextHandle p <> 0 ->
  pendingFor (onChange e p) e
  /\ invoked (onChange e p) = invoked p
  /\ syncDelay (onChange e p) = syncDelay p.
Proof.
  intros Ht Hn. unfold onChange, advance. rewrite Ht. cbn [List.length runTimers].
  unfold debouncedSync. cbn [syncTimeout timers nextHandle clock syncDelay
                             debounceId invoked].
  rewrite Ht.
  assert (Hc : (if truthyHandle (syncTimeout p)
                then match syncTimeout p with
                     | Some h => clearTimeout h []
                     | None => []
                     end
                else []) = @nil Timer).
  { destruct (truthyHandle _); [|reflexivity].
    destruct (syncTimeout p); reflexivity. }
  rewrite Hc. cbn [app]. repeat split.
  eexists. cbn [timers syncTimeout nextHandle debounceId syncDelay].
  repeat split; cbn [handle currentId timerFile due]; auto. lia.
Qed.

(** A further event within the delay: the pending timer is not due yet, is
    cleared, and a new one is set; nothing is synced. *)
Lemma onChange_pending (e e' : ChangeEvent) (p : R2SyncPlugin) :
  pendingFor p e ->
  (at_ e' < at_ e + syncDelay p * 1000)%Z ->
  pendingFor (onChange e' p) e'
  /\ invoked (onChange e' p) = invoked p
  /\ syncDelay (onChange e' p) = syncDelay p.
Proof.
  intros (t & Ht & Hs & Hh & Hn & Hid & Hfile & Hdue) Hlt.
  unfold onChange, advance. rewrite Ht. cbn [List.length runTimers].
  rewrite Ht. cbn [filter].
  assert (Hnot : (due t <? at_ e')%Z = false) by (apply Z.ltb_ge; lia).
  rewrite Hnot. cbn [earliest].
  unfold debouncedSync. cbn [syncTimeout timers nextHandle clock syncDelay
                             debounceId invoked].
  rewrite Hs, Ht. cbn [truthyHandle].
  apply Nat.eqb_neq in Hh. rewrite Hh. cbn [negb].
  rewrite clearTimeout_single. cbn [app]. repeat split.
  eexists. cbn [timers syncTimeout nextHandle debounceId syncDelay].
  repeat split; cbn [handle currentId timerFile due]; auto. lia.
Qed.

(** Once nothing more happens, the pending timer fires and syncs its
    file; no timer is left. *)
Lemma settle_pending (e : ChangeEvent) (p : R2SyncPlugin) :
  pendingFor p e ->
  invoked (settle p) = (invoked p ++ [changed e])%list
  /\ timers (settle p) = [].
Proof.
  intros (t & Ht & Hs & Hh & Hn & Hid & Hfile & Hdue).
  unfold settle. rewrite Ht. cbn [List.length runTimers].
  rewrite Ht. cbn [filter earliest]. unfold fire.
  rewrite Hid, Nat.eqb_refl, Ht, clearTimeout_single, Hfile.
  cbn [invoked timers]. split; reflexivity.
Qed.

Lemma last_cons {A} (a d : A) (l : list A) : last (a :: l) d = last l a.
Proof.
  revert a d. induction l as [|b l IH]; intros a d; [reflexivity|].
  change (last (a :: b :: l) d) with (last (b :: l) d).
  now rewrite (IH b d), (IH b a).
Qed.

Lemma runEvents_quiet (rest : list ChangeEvent) :
  forall (e : ChangeEvent) (p : R2SyncPlugin),
    pendingFor p e ->
    quietWindow (syncDelay p) (e :: rest) ->
    pendingFor (runEvents rest p) (last rest e)
    /\ invoked (runEvents rest p) = invoked p.
Proof.
  induction rest as [|e' rest IH]; intros e p Hp Hq.
  - split; [exact Hp | reflexivity].
  - cbn [quietWindow] in Hq. destruct Hq as [[_ Hlt] Hq].
    destruct (onChange_pending e e' p Hp Hlt) as (Hp' & Hi & Hd).
    change (runEvents (e' :: rest) p) with (runEvents rest (onChange e' p)).
    rewrite <- Hd in Hq. destruct (IH e' _ Hp' Hq) as [H1 H2].
    rewrite last_cons. split; [exact H1 | congruence].
Qed.

(** C9: for the changes of one quiet window, each within the delay of the
    one before, exactly one single-file sync is started once the window is
    over, for the file of the last change; the timers of the earlier
    changes were cleared and none is left to fire.  So after changes of [A]
    and then of [B] only [B] is synced. *)
Theorem debounce_last_change_only (delay : Z) (e : ChangeEvent)
  (rest : list ChangeEvent) :
  quietWindow delay (e :: rest) ->
  invoked (settle (runEvents (e :: rest) (loaded delay)))
  = [changed (last rest e)]
  /\ timers (settle (runEvents (e :: rest) (loaded delay))) = [].
Proof.
  intros Hq.
  change (runEvents (e :: rest) (loaded delay))
    with (runEvents rest (onChange e (loaded delay))).
  destruct (onChange_idle e (loaded delay) eq_refl) as (Hp & Hi & Hd);
    [discriminate|].
  change (syncDelay (loaded delay)) with delay in Hd. rewrite <- Hd in Hq.
  destruct (runEvents_quiet rest e _ Hp Hq) as [Hp' Hi'].
  destruct (settle_pending _ _ Hp') as [H1 H2].
  split; [|exact H2]. rewrite H1, Hi', Hi. reflexivity.
Qed.

Lemma debounce_last_change_only_witness :
  let A := mkTFile "A.md" "A.md" "md" in
  let B := mkTFile "B.md" "B.md" "md" in
  let events := [mkEvent 0 A; mkEvent 1000 A; mkEvent 3000 B] in
  invoked (settle (runEvents events (loaded 5))) = [B]
  /\ timers (settle (runEvents events (loaded 5))) = [].
Proof.
  intros A B events.
  apply (debounce_last_change_only 5 (mkEvent 0 A)
           [mkEvent 1000 A; mkEvent 3000 B]).
  cbn. lia.
Defined.

(** A timer that does fire starts the sync exactly when its token is the
    current one. *)
Lemma fire_token (t : Timer) (p : R2SyncPlugin) :
  invoked (fire t p)
  = if (currentId t =? debounceId p)%nat
    then (invoked p ++ [timerFile t])%list else invoked p.
Proof. reflexivity. Qed.

(** Changes further apart than the delay are each synced. *)
Example debounce_two_windows :
  let A := mkTFile "A.md" "A.md" "md" in
  let B := mkTFile "B.md" "B.md" "md" in
  invoked (settle (runEvents [mkEvent 0 A; mkEvent 6000 A; mkEvent 7000 B]
                     (loaded 5)))
  = [A; B].
Proof. reflexivity. Qed.

(* ================================================================== *)
(** ** The download phase, key by key *)

Lemma lookupFile_replaceContent (p data : string) (l : list (TFile * string)) :
  forall f c, lookupFile p l = Some (f, c) ->
  lookupFile p (replaceContent p data l) = Some (f, data).
Proof.
  induction l as [|[f0 c0] l IH]; intros f c H; cbn in *; [discriminate|].
  destruct (String.eqb (path f0) p) eqn:E; cbn; rewrite E.
  - congruence.
  - now apply (IH f c).
Qed.

Lemma getAbstractFileByPath_file (v : Vault) (p : string) (f : TFile) :
  getAbstractFileByPath v p = Some (AFile f) ->
  exists c, lookupFile p (files v) = Some (f, c) /\ path f = p.
Proof.
  unfold getAbstractFileByPath.
  destruct (lookupFile p (files v)) as [[f0 c0]|] eqn:E.
  - intros H. injection H as <-. exists c0. split; [reflexivity|].
    clear -E. induction (files v) as [|[g d] l IH]; cbn in E; [discriminate|].
    destruct (String.eqb_spec (path g) p) as [Hp|_]; [congruence | auto].
  - destruct (JS.mem p (folders v)); discriminate.
Qed.

(** X1: a remote key outside [backups/] whose content was fetched and is
    not empty, mapped to a path where a readable local file is: the file is
    left as it is when the contents are equal, and is given the remote
    content when they differ. *)
Theorem downloadRemoteKey_existing (remoteKey remoteContent localContent : string)
  (counts : nat * nat) (s : SyncManager) (r : R2) (localFile : TFile) :
  let localPath :=
    getLocalPathFromKey (vaultName (vault s)) (baseFolder (settings s)) remoteKey in
  JS.startsWith remoteKey "backups/" = false ->
  r2Service s = Some r ->
  downloadFile remoteKey r = Some remoteContent ->
  remoteContent <> "" ->
  getAbstractFileByPath (vault s) localPath = Some (AFile localFile) ->
  lookupFile localPath (files (vault s)) = Some (localFile, localContent) ->
  JS.mem localPath (unreadable (vault s)) = false ->
  (remoteContent = localContent ->
   downloadRemoteKey remoteKey counts s = (Normal counts, s))
  /\ (remoteContent <> localContent ->
      exists s',
        downloadRemoteKey remoteKey counts s
        = (Normal (fst counts, S (snd counts)), s')
        /\ lookupFile localPath (files (vault s')) = Some (localFile, remoteContent)
        /\ r2Service s' = r2Service s).
Proof.
  intros localPath Hb Hr Hd Hne Hf Hl Hu.
  destruct (getAbstractFileByPath_file _ _ _ Hf) as (c & Hc & Hp).
  unfold downloadRemoteKey. destruct counts as [d u]. rewrite Hb.
  unfold localPathFromKey. rewrite bind_eq, gets_eq. fold localPath.
  rewrite bind_eq, gets_eq, Hf, bind_eq.
  unfold r2_downloadFile, with_r2. rewrite Hr, ret_eq, Hd.
  rewrite (truthy_true _ Hne), bind_eq.
  unfold vault_read. rewrite Hp, Hu, Hl.
  split.
  - intros ->. now rewrite String.eqb_refl.
  - intros Hdiff. apply String.eqb_neq in Hdiff. rewrite Hdiff. cbn [negb].
    rewrite bind_eq. unfold vault_modify. rewrite Hp, Hl.
    eexists. split; [reflexivity|]. cbn. split; [|congruence].
    now apply lookupFile_replaceContent with (c := localContent).
Qed.

(** A remote key mapped to a path where nothing is: the folders above the
    path and the file are created, here two folders deep. *)
Example downloadRemoteKey_creates :
  let s :=
    mkSyncManager (mkVault "MyVault" ".obsidian" [] [] [])
                  (Some (mkR2 [("MyVault/d/e/y.md", mkObject "new" "text/markdown")]
                              [] [] [] []))
                  (mkSettings "" true false 30 "" false) false [] in
  let '(c, s') := downloadRemoteKey "MyVault/d/e/y.md" (0, 0) s in
  c = Normal (1, 0)
  /\ vault s' = mkVault "MyVault" ".obsidian"
                  [(mkTFile "d/e/y.md" "y.md" "md", "new")] ["d"; "d/e"] [].
Proof. split; reflexivity. Qed.

(** C4 fails on the code for an empty remote object: the download phase
    lists [MyVault/x.md] and [MyVault/new.md], both fetched with empty
    content.  The local [x.md] holds [hello], which differs, and is not
    overwritten; no local [new.md] is created.  The check
    [if (remoteContent)] takes the empty string for a failed download. *)
Theorem downloadRemoteChanges_skips_empty_remote :
  let r := mkR2 [("MyVault/new.md", mkObject "" "text/markdown");
                 ("MyVault/x.md", mkObject "" "text/markdown")] [] [] [] [] in
  let s :=
    mkSyncManager (mkVault "MyVault" ".obsidian"
                     [(mkTFile "x.md" "x.md" "md", "hello")] [] [])
                  (Some r) (mkSettings "" true false 30 "" false) false [] in
  listFiles "MyVault" r = ["MyVault/new.md"; "MyVault/x.md"]
  /\ downloadFile "MyVault/x.md" r = Some ""
  /\ downloadFile "MyVault/new.md" r = Some ""
  /\ getLocalPathFromKey "MyVault" "" "MyVault/x.md" = "x.md"
  /\ getLocalPathFromKey "MyVault" "" "MyVault/new.md" = "new.md"
  /\ downloadRemoteChanges s = (Normal true, s).
Proof. repeat split. Qed.

(* ================================================================== *)
(** ** Backups *)

(** With [retentionDays = 0] the cutoff is the present moment. *)
Lemma minusDays_zero (now : Z) : JSDate.minusDays now 0 = now.
Proof. unfold JSDate.minusDays. lia. Qed.

(** C2 fails on the code: there is no guard for [retentionDays = 0].  A
    marker of 2020-01-01 is listed, its date is before the cutoff, which is
    now (2026-11-03), and it is deleted; the count returned is 1. *)
Theorem cleanupOldBackups_zero_deletes :
  let marker := "backups/2020-01-01T00:00:00.000Z/backup_marker" in
  let r := snd (R2ServiceObsidian.createBackup "backup_marker"
                  "2020-01-01T00:00:00.000Z" (mkR2 [] [] [] [] [])) in
  let now := 1793664000000%Z in
  JSDate.parse "2026-11-03T00:00:00.000Z" = Some now
  /\ map fst (objects r) = [marker]
  /\ R2ServiceObsidian.listBackups r
     = [mkBackup "2020-01-01T00:00:00.000Z" "backup_marker"]
  /\ R2ServiceObsidian.cleanupOldBackups 0 now r = (1, mkR2 [] [] [] [] []).
Proof. repeat split. Qed.

(** The same through [SyncManager.cleanupOldBackups], with
    [backupRetentionDays = 0] in the settings. *)
Example SyncManager_cleanupOldBackups_zero :
  let r := snd (R2ServiceObsidian.createBackup "backup_marker"
                  "2020-01-01T00:00:00.000Z" (mkR2 [] [] [] [] [])) in
  let s :=
    mkSyncManager (mkVault "MyVault" ".obsidian" [] [] []) (Some r)
                  (mkSettings "" true true 0 "" false) false [] in
  let '(c, s') := cleanupOldBackups 1793664000000 s in
  c = Normal 1
  /\ r2Service s' = Some (mkR2 [] [] [] [] [])
  /\ notices s' = [NCleaned 1].
Proof. repeat split. Qed.

(** C5 fails on the code: [createBackup] succeeds and writes the marker at
    [backups/{timestamp}/root], and [listBackups], which only reads the
    keys that end with [backup_marker], returns the empty list. *)
Theorem createBackup_listBackups_misses :
  let s :=
    mkSyncManager (mkVault "MyVault" ".obsidian" [] [] [])
                  (Some (mkR2 [] [] [] [] []))
                  (mkSettings "" true true 30 "" false) false [] in
  let s' := snd (createBackup "2024-01-15T10:30:00.000Z" "root" s) in
  fst (createBackup "2024-01-15T10:30:00.000Z" "root" s) = Normal true
  /\ r2Service s'
     = Some (mkR2 [("backups/2024-01-15T10-30-00-000Z/root",
                    mkObject (JSON.stringify_marker "2024-01-15T10-30-00-000Z" "root")
                             "application/json")] [] [] [] [])
  /\ JSON.parse (JSON.stringify_marker "2024-01-15T10-30-00-000Z" "root")
     = Some (JSON.VObject
               [("timestamp", JSON.VString "2024-01-15T10-30-00-000Z");
                ("folderPath", JSON.VString "root");
                ("type", JSON.VString "backup_marker")])
  /\ JS.endsWith "backups/2024-01-15T10-30-00-000Z/root" "backup_marker" = false
  /\ fst (listBackups s') = Normal [].
Proof. repeat split. Qed.

(** The marker is found when the folder path itself ends with
    [backup_marker]. *)
Example createBackup_listBackups_marker_suffix :
  let s :=
    mkSyncManager (mkVault "MyVault" ".obsidian" [] [] [])
                  (Some (mkR2 [] [] [] [] []))
                  (mkSettings "" true true 30 "" false) false [] in
  let s' := snd (createBackup "2024-01-15T10:30:00.000Z" "backup_marker" s) in
  fst (listBackups s')
  = Normal [mkBackup "2024-01-15T10-30-00-000Z" "backup_marker"].
Proof. reflexivity. Qed.

(** The key-safe timestamps that [SyncManager.createBackup] makes are not
    in the date-time format. *)
Example keysafe_timestamp_is_no_date :
  JS.replaceColonDot "2024-01-15T10:30:00.000Z" = "2024-01-15T10-30-00-000Z"
  /\ JSDate.parse "2024-01-15T10-30-00-000Z" = None.
Proof. split; reflexivity. Qed.

Lemma downloadRemoteKey_existing_witness :
  let localFile := mkTFile "x.md" "x.md" "md" in
  let r := mkR2 [("MyVault/x.md", mkObject "remote" "text/markdown")] [] [] [] [] in
  let s :=
    mkSyncManager (mkVault "MyVault" ".obsidian" [(localFile, "hello")] [] [])
                  (Some r) (mkSettings "" true false 30 "" false) false [] in
  exists s',
    downloadRemoteKey "MyVault/x.md" (0, 0) s = (Normal (0, 1), s')
    /\ lookupFile "x.md" (files (vault s')) = Some (localFile, "remote")
    /\ r2Service s' = Some r.
Proof.
  intros localFile r s.
  destruct (downloadRemoteKey_existing "MyVault/x.md" "remote" "hello" (0, 0)
              s r localFile) as [_ H]; try reflexivity; try discriminate.
  apply H. discriminate.
Defined.

(* ================================================================== *)
(** ** The in-flight flag and the bucket *)

Lemma pass_releases (body : M bool) (err : Notice) (s : SyncManager) :
  syncInProgress s = false ->
  syncInProgress (snd (pass body err s)) = false
  /\ settings_syncInProgress (settings (snd (pass body err s)))
     = settings_syncInProgress (settings (if no_service s then s else finished s)).
Proof.
  intros Hb. destruct (r2Service s) as [r|] eqn:Hr.
  - rewrite pass_run by congruence.
    unfold no_service. rewrite Hr.
    destruct (body (started s)) as [[b|e] s']; split; reflexivity.
  - rewrite pass_rejected by (now right).
    unfold no_service. rewrite Hr. split; [exact Hb | reflexivity].
Qed.

(** X2: the in-flight flag is released on every way out: a call that finds
    the flag down leaves it down, whether the guard rejects the call for a
    missing client, the pass ends normally, or an error is thrown. *)
Theorem syncInProgress_released (now : string) (file : TFile) (s : SyncManager) :
  syncInProgress s = false ->
  syncInProgress (snd (syncFile now file s)) = false
  /\ syncInProgress (snd (syncAllFiles now s)) = false
  /\ syncInProgress (snd (syncMissingFiles now s)) = false
  /\ syncInProgress (snd (downloadAndSync s)) = false.
Proof.
  intros Hb. rewrite syncFile_pass, syncAllFiles_pass, syncMissingFiles_pass.
  repeat split; try (now apply pass_releases).
  unfold downloadAndSync. rewrite bind_eq, gets_eq, Hb. cbn [orb].
  destruct (no_service s || negb (bidirectionalSync (settings s)));
    [exact Hb|].
  rewrite bind_eq. cbn [set_syncInProgress modify_state].
  unfold try_finally, try_catch.
  match goal with |- context [downloadRemoteChanges ?st] =>
    destruct (downloadRemoteChanges st) as [[b|e] s']
  end; reflexivity.
Qed.

Lemma syncInProgress_released_witness :
  let file := mkTFile "a.md" "a.md" "md" in
  let s :=
    mkSyncManager (mkVault "MyVault" ".obsidian" [(file, "hello")] [] ["a.md"])
                  (Some (mkR2 [] [] [] [] []))
                  (mkSettings "" true false 30 "" false) false [] in
  syncInProgress (snd (syncFile "2026-11-03T00:00:00.000Z" file s)) = false
  /\ syncInProgress (snd (syncAllFiles "2026-11-03T00:00:00.000Z" s)) = false
  /\ syncInProgress (snd (syncMissingFiles "2026-11-03T00:00:00.000Z" s)) = false
  /\ syncInProgress (snd (downloadAndSync s)) = false.
Proof.
  intros file s.
  apply (syncInProgress_released "2026-11-03T00:00:00.000Z" file s).
  reflexivity.
Defined.

(** X3: the download phase reads the bucket and never writes to it, and
    leaves [lastSyncTime] alone. *)
Theorem downloadRemoteChanges_reads_only (s : SyncManager) :
  r2Service (snd (downloadRemoteChanges s)) = r2Service s
  /\ lastSync (snd (downloadRemoteChanges s)) = lastSync s.
Proof.
  split.
  - apply (keeps_downloadRemoteChanges r2Service); intros ? ?; reflexivity.
  - apply (keeps_downloadRemoteChanges lastSync);
      [apply lastSync_vault_blind | apply lastSync_notice_blind].
Qed.

(* ================================================================== *)
(** ** The bucket: put, get, remove *)

Lemma compare_refl (k : string) : String.compare k k = Eq.
Proof.
  pose proof (String.compare_antisym k k) as H.
  destruct (String.compare k k); cbn in H; congruence.
Qed.

Lemma getObject_putObject_same (k : string) (o : R2Object)
  (l : list (string * R2Object)) :
  getObject k (putObject k o l) = Some o.
Proof.
  induction l as [|[k' o'] l IH]; cbn.
  - now rewrite String.eqb_refl.
  - destruct (String.compare k k') eqn:E; cbn.
    + now rewrite String.eqb_refl.
    + now rewrite String.eqb_refl.
    + destruct (String.eqb_spec k' k) as [->|_]; [|exact IH].
      rewrite compare_refl in E. discriminate.
Qed.

Lemma getObject_putObject_other (k k2 : string) (o : R2Object)
  (l : list (string * R2Object)) :
  k2 <> k -> getObject k2 (putObject k o l) = getObject k2 l.
Proof.
  intros Hne. assert (Hk : String.eqb k k2 = false)
    by (apply String.eqb_neq; congruence).
  induction l as [|[k' o'] l IH]; cbn.
  - now rewrite Hk.
  - destruct (String.compare k k') eqn:E; cbn.
    + apply String.compare_eq_iff in E. subst k'. now rewrite Hk.
    + now rewrite Hk.
    + now rewrite IH.
Qed.

Lemma getObject_removeObject_same (k : string) (l : list (string * R2Object)) :
  getObject k (removeObject k l) = None.
Proof.
  unfold removeObject. induction l as [|[k' o'] l IH]; cbn; [reflexivity|].
  destruct (String.eqb k' k) eqn:E; cbn; [exact IH|]. now rewrite E.
Qed.

Lemma getObject_removeObject_other (k k2 : string)
  (l : list (string * R2Object)) :
  k2 <> k -> getObject k2 (removeObject k l) = getObject k2 l.
Proof.
  intros Hne. unfold removeObject.
  induction l as [|[k' o'] l IH]; cbn; [reflexivity|].
  destruct (String.eqb_spec k' k) as [->|Hk]; cbn.
  - assert (H : String.eqb k k2 = false) by (apply String.eqb_neq; congruence).
    now rewrite H.
  - now rewrite IH.
Qed.

(** *** What [TextDecoder] gives back *)

Lemma decodeFrom_None (c : ascii) (rest : string) :
  TextDecoder.decodeFrom None (String c rest)
  = let n := nat_of_ascii c in
    if (n <? 128)%nat then String c (TextDecoder.decodeFrom None rest)
    else if ((194 <=? n) && (n <=? 223))%nat then
      TextDecoder.decodeFrom
        (Some (TextDecoder.mkPending 1 128 191 (String c EmptyString))) rest
    else if ((224 <=? n) && (n <=? 239))%nat then
      TextDecoder.decodeFrom
        (Some (TextDecoder.mkPending 2 (TextDecoder.lowerAfter n)
                 (TextDecoder.upperAfter n) (String c EmptyString))) rest
    else if ((240 <=? n) && (n <=? 244))%nat then
      TextDecoder.decodeFrom
        (Some (TextDecoder.mkPending 3 (TextDecoder.lowerAfter n)
                 (TextDecoder.upperAfter n) (String c EmptyString))) rest
    else TextDecoder.replacement ++ TextDecoder.decodeFrom None rest.
Proof. reflexivity. Qed.

(** A byte that continues the sequence in hand. *)
Lemma decodeFrom_Some (k lo hi : nat) (sn : string) (c : ascii) (rest : string) :
  TextDecoder.inRange lo hi c = true ->
  TextDecoder.decodeFrom (Some (TextDecoder.mkPending k lo hi sn)) (String c rest)
  = if (k =? 1)%nat then
      (sn ++ String c EmptyString) ++ TextDecoder.decodeFrom None rest
    else
      TextDecoder.decodeFrom
        (Some (TextDecoder.mkPending (k - 1) 128 191 (sn ++ String c EmptyString)))
        rest.
Proof.
  intros H. cbn [TextDecoder.decodeFrom TextDecoder.lower TextDecoder.upper].
  rewrite H. reflexivity.
Qed.

Lemma decodeFrom_wellFormed (n : nat) :
  forall s, String.length s <= n -> wellFormed s = true ->
  TextDecoder.decodeFrom None s = s.
Proof.
  induction n as [|n IH]; intros s Hl Hw.
  - destruct s; [reflexivity | cbn in Hl; lia].
  - destruct s as [|c rest]; [reflexivity|].
    rewrite decodeFrom_None. cbn [wellFormed] in Hw. cbn [String.length] in Hl.
    cbv zeta in *.
    destruct (nat_of_ascii c <? 128)%nat.
    { rewrite IH by (assumption || lia). reflexivity. }
    destruct ((194 <=? nat_of_ascii c) && (nat_of_ascii c <=? 223))%nat.
    { destruct rest as [|c1 r1]; [discriminate|].
      apply andb_prop in Hw as [H1 Hw]. cbn [String.length] in Hl.
      rewrite (decodeFrom_Some _ _ _ _ _ _ H1). cbn [Nat.eqb append].
      rewrite IH by (assumption || lia). reflexivity. }
    destruct ((224 <=? nat_of_ascii c) && (nat_of_ascii c <=? 239))%nat.
    { destruct rest as [|c1 [|c2 r2]]; try discriminate.
      apply andb_prop in Hw as [Hw H3]. apply andb_prop in Hw as [H1 H2].
      cbn [String.length] in Hl.
      rewrite (decodeFrom_Some _ _ _ _ _ _ H1). cbn [Nat.eqb Nat.sub append].
      rewrite (decodeFrom_Some _ _ _ _ _ _ H2). cbn [Nat.eqb append].
      rewrite IH by (assumption || lia). reflexivity. }
    destruct ((240 <=? nat_of_ascii c) && (nat_of_ascii c <=? 244))%nat;
      [|discriminate].
    destruct rest as [|c1 [|c2 [|c3 r3]]]; try discriminate.
    apply andb_prop in Hw as [Hw H4]. apply andb_prop in Hw as [Hw H3].
    apply andb_prop in Hw as [H1 H2]. cbn [String.length] in Hl.
    rewrite (decodeFrom_Some _ _ _ _ _ _ H1). cbn [Nat.eqb Nat.sub append].
    rewrite (decodeFrom_Some _ _ _ _ _ _ H2). cbn [Nat.eqb Nat.sub append].
    rewrite (decodeFrom_Some _ _ _ _ _ _ H3). cbn [Nat.eqb append].
    rewrite IH by (assumption || lia). reflexivity.
Qed.

(** After the byte order mark of a well-formed text comes a well-formed
    text. *)
Lemma wellFormed_after_BOM (s : string) :
  wellFormed s = true -> TextDecoder.startsWithBOM s = true ->
  wellFormed (JS.substring s 3) = true.
Proof.
  intros Hw Hb. destruct s as [|a [|b [|c rest]]]; try discriminate.
  cbn [TextDecoder.startsWithBOM] in Hb.
  apply andb_prop in Hb as [Hb _]. apply andb_prop in Hb as [Ha _].
  apply Nat.eqb_eq in Ha. cbn [wellFormed] in Hw. cbv zeta in Hw.
  rewrite Ha in Hw. cbn [JS.substring].
  change (239 <? 128)%nat with false in Hw.
  change ((194 <=? 239) && (239 <=? 223))%nat with false in Hw.
  change ((224 <=? 239) && (239 <=? 239))%nat with true in Hw.
  cbv iota in Hw. now apply andb_prop in Hw as [_ Hw].
Qed.

(** Text that is well formed comes back as it is, less its byte order
    mark. *)
Lemma decode_wellFormed (s : string) :
  wellFormed s = true ->
  TextDecoder.decode s
  = if TextDecoder.startsWithBOM s then JS.substring s 3 else s.
Proof.
  intros Hw. unfold TextDecoder.decode, TextDecoder.stripBOM.
  destruct (TextDecoder.startsWithBOM s) eqn:Hb.
  - apply (decodeFrom_wellFormed _ _ (le_n _)).
    now apply wellFormed_after_BOM.
  - now apply (decodeFrom_wellFormed _ _ (le_n _)).
Qed.



(* ================================================================== *)
(** ** What a successful [syncFile] leaves behind *)

Lemma readFileContentWithType_content (file f : TFile) (c : string)
  (s : SyncManager) :
  JS.mem (path file) (unreadable (vault s)) = false ->
  lookupFile (path file) (files (vault s)) = Some (f, c) ->
  exists ctype, readFileContentWithType file s = (Normal (c, ctype), s).
Proof.
  intros Hu Hl.
  assert (Hread : vault_read file s = (Normal c, s))
    by (unfold vault_read; now rewrite Hu, Hl).
  unfold readFileContentWithType, vault_readBinary.
  repeat match goal with |- context [if ?b then _ else _] => destruct b end;
    rewrite bind_eq, Hread; eexists; reflexivity.
Qed.

Lemma readFileContentWithType_vault (file : TFile) (s s' : SyncManager) :
  vault s = vault s' ->
  fst (readFileContentWithType file s) = fst (readFileContentWithType file s').
Proof.
  intros Hv.
  assert (Hread : fst (vault_read file s) = fst (vault_read file s')).
  { unfold vault_read. rewrite Hv.
    destruct (JS.mem _ _); [reflexivity|].
    destruct (lookupFile _ _) as [[? ?]|]; reflexivity. }
  unfold readFileContentWithType, vault_readBinary.
  repeat match goal with |- context [if ?b then _ else _] => destruct b end;
    rewrite !bind_eq;
    destruct (vault_read file s) as [[x|x] ?];
    destruct (vault_read file s') as [[y|y] ?];
    cbn in *; congruence.
Qed.

(** X5: a call of [syncFile] that the guard lets through, for a file that
    can be read and whose upload is accepted, returns [true]; afterwards
    the bucket holds the file's content under the file's key with the
    content type read from the extension, every other object is as before,
    [lastSyncTime] is the time of the call, the flag is down, the vault is
    untouched and one notice was added. *)
Theorem syncFile_uploads (now : string) (file f : TFile) (c : string)
  (s : SyncManager) (r : R2) :
  let key := getFileKey (vaultName (vault s)) (baseFolder (settings s)) file in
  syncInProgress s = false ->
  r2Service s = Some r ->
  JS.mem (path file) (unreadable (vault s)) = false ->
  lookupFile (path file) (files (vault s)) = Some (f, c) ->
  JS.mem key (failPut r) = false ->
  exists r' ctype,
    syncFile now file s
    = (Normal true,
       mkSyncManager (vault s) (Some r')
         (mkSettings (baseFolder (settings s)) (bidirectionalSync (settings s))
            (enableBackups (settings s)) (backupRetentionDays (settings s))
            now false)
         false (notices s ++ [NSynced (name file)]))
    /\ fst (readFileContentWithType file s) = Normal (c, ctype)
    /\ getObject key (objects r') = Some (mkObject c ctype)
    /\ forall k2, k2 <> key -> getObject k2 (objects r') = getObject k2 (objects r).
Proof.
  intros key Hb Hr Hu Hl Hp.
  destruct (readFileContentWithType_content file f c (started s) Hu Hl)
    as [ctype Hc].
  exists (mkR2 (putObject key (mkObject c ctype) (objects r))
               (failPut r) (failGet r) (failList r) (failDelete r)), ctype.
  split; [|split; [|split]].
  - rewrite syncFile_pass, pass_run by congruence.
    unfold syncFile_body. rewrite bind_eq, Hc, bind_eq, fileKey_eq, bind_eq.
    change (getFileKey (vaultName (vault (started s)))
              (baseFolder (settings (started s))) file) with key.
    unfold r2_uploadFile, with_r2.
    change (r2Service (started s)) with (r2Service s). rewrite Hr.
    unfold uploadFile. cbn [fst snd]. rewrite Hp. reflexivity.
  - rewrite (readFileContentWithType_vault file s (started s) eq_refl).
    now rewrite Hc.
  - apply getObject_putObject_same.
  - intros k2 Hk. now apply getObject_putObject_other.
Qed.

Lemma syncFile_uploads_witness :
  let file := mkTFile "notes/a.md" "a.md" "md" in
  let s :=
    mkSyncManager (mkVault "MyVault" ".obsidian" [(file, "hello")] ["notes"] [])
                  (Some (mkR2 [] [] [] [] []))
                  (mkSettings "" true false 30 "" false) false [] in
  exists r' ctype,
    syncFile "2026-11-03T00:00:00.000Z" file s
    = (Normal true,
       mkSyncManager (vault s) (Some r')
         (mkSettings "" true false 30 "2026-11-03T00:00:00.000Z" false)
         false [NSynced "a.md"])
    /\ fst (readFileContentWithType file s) = Normal ("hello", ctype)
    /\ getObject "MyVault/notes/a.md" (objects r') = Some (mkObject "hello" ctype)
    /\ forall k2, k2 <> "MyVault/notes/a.md" -> getObject k2 (objects r') = None.
Proof.
  intros file s.
  apply (syncFile_uploads "2026-11-03T00:00:00.000Z" file file "hello" s
           (mkR2 [] [] [] [] [])); reflexivity.
Defined.

(* ================================================================== *)
(** ** Calls that are turned away *)

(** X6: every operation that is turned away leaves the whole state as it
    was.  [syncAllFiles] and [syncMissingFiles] while a pass is in flight
    or with no client; [downloadAndSync] in these cases and with the
    bidirectional sync off; [downloadRemoteChanges] with no client or the
    bidirectional sync off; [createBackup] and [cleanupOldBackups] with no
    client or the backups off; [deleteRemoteForFile] with no client or for
    an extension outside the list. *)
Theorem rejected_calls_change_nothing (now : string) (nowMs : Z)
  (folderPath : string) (file : TFile) (s : SyncManager) :
  (syncInProgress s = true \/ r2Service s = None ->
   syncAllFiles now s = (Normal false, s)
   /\ syncMissingFiles now s = (Normal false, s)
   /\ downloadAndSync s = (Normal false, s))
  /\ (r2Service s = None \/ bidirectionalSync (settings s) = false ->
      downloadRemoteChanges s = (Normal false, s)
      /\ downloadAndSync s = (Normal false, s))
  /\ (r2Service s = None \/ enableBackups (settings s) = false ->
      createBackup now folderPath s = (Normal false, s)
      /\ cleanupOldBackups nowMs s = (Normal 0, s))
  /\ (r2Service s = None \/ isSupportedFile file = false ->
      deleteRemoteForFile file s = (Normal (false, []), s)).
Proof.
  split; [|split; [|split]]; intros H.
  - repeat split.
    + rewrite syncAllFiles_pass. now apply pass_rejected.
    + rewrite syncMissingFiles_pass. now apply pass_rejected.
    + unfold downloadAndSync. rewrite bind_eq, gets_eq.
      destruct H as [H|H]; [now rewrite H|].
      unfold no_service. rewrite H. now rewrite orb_true_r.
  - split.
    + unfold downloadRemoteChanges. rewrite bind_eq, gets_eq.
      destruct H as [H|H]; [unfold no_service; now rewrite H|].
      rewrite H. now rewrite orb_true_r.
    + unfold downloadAndSync. rewrite bind_eq, gets_eq.
      destruct H as [H|H]; [unfold no_service; rewrite H|rewrite H];
        cbn; now rewrite ?orb_true_r.
  - split.
    + unfold createBackup. rewrite bind_eq, gets_eq.
      destruct H as [H|H]; [unfold no_service; now rewrite H|].
      rewrite H. now rewrite orb_true_r.
    + unfold cleanupOldBackups. rewrite bind_eq, gets_eq.
      destruct H as [H|H]; [unfold no_service; now rewrite H|].
      rewrite H. now rewrite orb_true_r.
  - unfold deleteRemoteForFile. rewrite bind_eq, gets_eq.
    destruct H as [H|H]; [unfold no_service; now rewrite H|].
    rewrite H. cbn [negb]. now destruct (no_service s).
Qed.

Lemma rejected_calls_change_nothing_witness :
  let s :=
    mkSyncManager (mkVault "MyVault" ".obsidian"
                     [(mkTFile "a.md" "a.md" "md", "hello")] [] [])
                  (Some (mkR2 [("MyVault/a.canvas", mkObject "x" "application/octet-stream")]
                              [] [] [] []))
                  (mkSettings "" false false 30 "" true) true [] in
  syncAllFiles "2026-11-03T00:00:00.000Z" s = (Normal false, s)
  /\ downloadRemoteChanges s = (Normal false, s)
  /\ createBackup "2026-11-03T00:00:00.000Z" "root" s = (Normal false, s)
  /\ deleteRemoteForFile (mkTFile "a.canvas" "a.canvas" "canvas") s
     = (Normal (false, []), s).
Proof.
  intros s.
  destruct (rejected_calls_change_nothing "2026-11-03T00:00:00.000Z" 0 "root"
              (mkTFile "a.canvas" "a.canvas" "canvas") s)
    as (H1 & H2 & H3 & H4).
  split; [|split; [|split]].
  - apply H1. left. reflexivity.
  - apply H2. right. reflexivity.
  - apply H3. right. reflexivity.
  - apply H4. right. reflexivity.
Defined.

(* ================================================================== *)
(** ** Keys: where [getFileKey] is one-to-one, and where it is not *)

Lemma append_inj (a x y : string) : a ++ x = a ++ y -> x = y.
Proof.
  induction a as [|c a IH]; cbn; intros H; [exact H|].
  injection H as H. now apply IH.
Qed.

Lemma startsWith_refl_slash (b s : string) :
  JS.startsWith (b ++ "/" ++ b ++ "/" ++ s) (b ++ "/") = true.
Proof. apply startsWith_base. Qed.

(** X7: with a base folder [b] (the configured one, or the vault name when
    none is configured), two files under [b/] with the same key have the
    same path, and so have two files outside [b]; but a file [s] outside [b]
    and the file [b/b/s] under it have the same key [b/s], so that in a
    vault synced under its own name the two files share one remote
    object. *)
Theorem getFileKey_injective_on_each_side (v sb : string) (f1 f2 : TFile) :
  let b := JS.or sb v in
  let under f := JS.startsWith (path f) (b ++ "/") = true in
  let outside f := JS.startsWith (path f) (b ++ "/") = false /\ path f <> b in
  b <> "" ->
  (under f1 -> under f2 ->
   getFileKey v sb f1 = getFileKey v sb f2 -> path f1 = path f2)
  /\ (outside f1 -> outside f2 ->
      getFileKey v sb f1 = getFileKey v sb f2 -> path f1 = path f2)
  /\ (outside f1 -> path f2 = b ++ "/" ++ b ++ "/" ++ path f1 ->
      getFileKey v sb f1 = getFileKey v sb f2 /\ path f1 <> path f2).
Proof.
  intros b under outside Hb. split; [|split].
  - intros H1 H2 Hk.
    rewrite (getFileKey_under v sb f1 Hb H1), (getFileKey_under v sb f2 Hb H2).
    now rewrite Hk.
  - intros [H1 N1] [H2 N2] Hk.
    rewrite (getFileKey_outside v sb f1 Hb H1 N1),
            (getFileKey_outside v sb f2 Hb H2 N2) in Hk.
    apply append_inj in Hk. now apply append_inj in Hk.
  - intros [H1 N1] Hp. split.
    + rewrite (getFileKey_outside v sb f1 Hb H1 N1).
      assert (H2 : JS.startsWith (path f2) (b ++ "/") = true)
        by (rewrite Hp; apply startsWith_base).
      pose proof (getFileKey_under v sb f2 Hb H2) as E. fold b in E.
      rewrite Hp in E at 1. apply append_inj in E. apply append_inj in E.
      now symmetry.
    + intros E. rewrite E in Hp. apply (f_equal String.length) in Hp.
      rewrite !length_append in Hp. cbn in Hp. lia.
Qed.

Lemma getFileKey_injective_on_each_side_witness :
  let f1 := mkTFile "x.md" "x.md" "md" in
  let f2 := mkTFile "MyVault/MyVault/x.md" "x.md" "md" in
  getFileKey "MyVault" "" f1 = getFileKey "MyVault" "" f2
  /\ path f1 <> path f2.
Proof.
  intros f1 f2.
  destruct (getFileKey_injective_on_each_side "MyVault" "" f1 f2) as (_ & _ & H).
  - discriminate.
  - apply H; [split; [reflexivity | discriminate] | reflexivity].
Defined.

(* ================================================================== *)
(** ** [syncMissingFiles] does not touch what is listed *)

Lemma mem_In (x : string) (l : list string) : In x l -> JS.mem x l = true.
Proof.
  intros H. unfold JS.mem. apply existsb_exists. exists x.
  split; [exact H | apply String.eqb_refl].
Qed.

Lemma keeps_objAt_r2_uploadFile (k key c t : string) :
  k <> key -> keeps (objAt k) (r2_uploadFile key c t).
Proof.
  intros Hne s. unfold r2_uploadFile, with_r2, objAt.
  destruct (r2Service s) as [r|] eqn:E; [|cbn; now rewrite E].
  unfold uploadFile. destruct (JS.mem key (failPut r)); cbn; rewrite ?E;
    [reflexivity|].
  now apply getObject_putObject_other.
Qed.

Lemma keeps_objAt_uploadMissing (k : string) (remoteSet : list string)
  (file : TFile) (n : nat) :
  JS.mem k remoteSet = true -> keeps (objAt k) (uploadMissing remoteSet file n).
Proof.
  intros Hk s. unfold uploadMissing. rewrite bind_eq, fileKey_eq.
  set (key := getFileKey _ _ file).
  destruct (JS.mem key remoteSet) eqn:Hm; cbn [negb]; [reflexivity|].
  assert (Hne : k <> key) by congruence.
  assert (K : keeps (objAt k)
                (ct <- readFileContentWithType file ;;
                 ok <- r2_uploadFile key (fst ct) (snd ct) ;;
                 ret (if ok : bool then S n else n))).
  { keeps_tac. now apply keeps_objAt_r2_uploadFile. }
  apply K.
Qed.

(** X8: [syncMissingFiles] leaves every object it listed as it found it:
    a key returned by the listing under the base folder holds the same
    object after the call, however the call ends. *)
Theorem syncMissingFiles_keeps_listed (now : string) (s : SyncManager) (r : R2)
  (k : string) :
  r2Service s = Some r ->
  In k (listFiles (JS.or (baseFolder (settings s)) (vaultName (vault s))) r) ->
  objAt k (snd (syncMissingFiles now s)) = getObject k (objects r).
Proof.
  intros Hr Hin. apply mem_In in Hin.
  assert (H0 : objAt k s = getObject k (objects r))
    by (unfold objAt; now rewrite Hr).
  rewrite syncMissingFiles_pass.
  destruct (syncInProgress s) eqn:Hb;
    [rewrite pass_rejected by (now left); exact H0|].
  rewrite pass_run by congruence.
  unfold syncMissingFiles_body.
  rewrite bind_eq, gets_eq, bind_eq, gets_eq, bind_eq.
  unfold r2_listFiles, with_r2.
  change (r2Service (started s)) with (r2Service s). rewrite Hr, ret_eq.
  change (baseFolder (settings (started s))) with (baseFolder (settings s)).
  change (vaultName (vault (started s))) with (vaultName (vault s)).
  rewrite bind_eq.
  match goal with |- context [for_of ?l ?a ?f ?st] =>
    pose proof (keeps_for_of (objAt k) l f
                  (fun x acc => keeps_objAt_uploadMissing k _ x acc Hin) a st) as H;
    destruct (for_of l a f st) as [[n|e] s2]
  end; cbn [snd] in H;
    change (objAt k (started s)) with (objAt k s) in H; rewrite H0 in H.
  - rewrite bind_eq. cbn [set_lastSyncTime modify_state]. rewrite bind_eq.
    destruct (0 <? n)%nat; rewrite notice_eq, ret_eq; exact H.
  - exact H.
Qed.

Lemma syncMissingFiles_keeps_listed_witness :
  let r := mkR2 [("MyVault/a.md", mkObject "remote" "text/markdown")] [] [] [] [] in
  let s :=
    mkSyncManager (mkVault "MyVault" ".obsidian"
                     [(mkTFile "a.md" "a.md" "md", "local");
                      (mkTFile "b.md" "b.md" "md", "new")] [] [])
                  (Some r) (mkSettings "" true false 30 "" false) false [] in
  objAt "MyVault/a.md" (snd (syncMissingFiles "2026-11-03T00:00:00.000Z" s))
  = Some (mkObject "remote" "text/markdown").
Proof.
  intros r s.
  apply (syncMissingFiles_keeps_listed "2026-11-03T00:00:00.000Z" s r
           "MyVault/a.md").
  - reflexivity.
  - left. reflexivity.
Defined.

(* ================================================================== *)
(** ** [deleteRemoteForFile] *)

(** X9: [deleteRemoteForFile] does not look at the in-flight flag: with a
    client and a supported extension it deletes the object under the file's
    key whether or not a pass is running.  When the request is accepted it
    returns [true] with the notice of the deletion, the key holds nothing
    afterwards, every other object is as before, and the vault, the
    settings and the flag are untouched; when the request is refused it
    returns [false] and the objects are as before. *)
Theorem deleteRemoteForFile_deletes (file : TFile) (s : SyncManager) (r : R2) :
  let key := getFileKey (vaultName (vault s)) (baseFolder (settings s)) file in
  r2Service s = Some r ->
  isSupportedFile file = true ->
  (JS.mem key (failDelete r) = false ->
   exists r',
     deleteRemoteForFile file s
     = (Normal (true, [NDeleted (name file)]),
        mkSyncManager (vault s) (Some r') (settings s) (syncInProgress s)
          (notices s))
     /\ getObject key (objects r') = None
     /\ forall k2, k2 <> key ->
          getObject k2 (objects r') = getObject k2 (objects r))
  /\ (JS.mem key (failDelete r) = true ->
      deleteRemoteForFile file s
      = (Normal (false, [NDeleteFailed (name file)]),
         mkSyncManager (vault s) (Some r) (settings s) (syncInProgress s)
           (notices s))).
Proof.
  intros key Hr Hs.
  assert (E : deleteRemoteForFile file s
              = let '(ok, r') := deleteFile key r in
                (Normal (if ok then (true, [NDeleted (name file)])
                         else (false, [NDeleteFailed (name file)])),
                 mkSyncManager (vault s) (Some r') (settings s)
                   (syncInProgress s) (notices s))).
  { unfold deleteRemoteForFile. rewrite bind_eq, gets_eq.
    unfold no_service. rewrite Hr, Hs. cbn [negb].
    unfold try_catch. rewrite bind_eq, fileKey_eq. fold key. rewrite bind_eq.
    unfold r2_deleteFile, with_r2. rewrite Hr.
    destruct (deleteFile key r) as [[|] r']; reflexivity. }
  rewrite E. unfold deleteFile. split; intros Hm; rewrite Hm.
  - eexists. split; [reflexivity|]. cbn [objects]. split.
    + apply getObject_removeObject_same.
    + intros k2 Hk. now apply getObject_removeObject_other.
  - reflexivity.
Qed.

Lemma deleteRemoteForFile_deletes_witness :
  let file := mkTFile "a.md" "a.md" "md" in
  let r := mkR2 [("MyVault/a.md", mkObject "hello" "text/markdown");
                 ("MyVault/b.md", mkObject "world" "text/markdown")] [] [] [] [] in
  let s :=
    mkSyncManager (mkVault "MyVault" ".obsidian" [] [] []) (Some r)
                  (mkSettings "" true false 30 "" true) true [] in
  exists r',
    deleteRemoteForFile file s
    = (Normal (true, [NDeleted "a.md"]),
       mkSyncManager (vault s) (Some r') (settings s) true [])
    /\ getObject "MyVault/a.md" (objects r') = None
    /\ forall k2, k2 <> "MyVault/a.md" ->
         getObject k2 (objects r') = getObject k2 (objects r).
Proof.
  intros file r s.
  destruct (deleteRemoteForFile_deletes file s r eq_refl eq_refl) as [H _].
  apply H. reflexivity.
Defined.

(* ================================================================== *)
(** ** Backups stay under their prefix *)

Lemma startsWith_app_prefix (k p q : string) :
  JS.startsWith k (p ++ q) = true -> JS.startsWith k p = true.
Proof.
  revert k. induction p as [|c p IH]; intros k H; cbn in *; [reflexivity|].
  destruct k as [|d k]; [discriminate|].
  destruct (Ascii.eqb d c); [now apply IH | discriminate].
Qed.

Lemma In_firstn {A} (x : A) (n : nat) (l : list A) :
  In x (firstn n l) -> In x l.
Proof.
  revert l. induction n as [|n IH]; intros l H.
  - destruct l; contradiction.
  - destruct l as [|y l]; [contradiction|]. cbn in H.
    destruct H as [H|H]; [now left | right; now apply IH].
Qed.

Lemma listObjects_prefix (prefix k : string) (l : list (string * R2Object)) :
  In k (listObjects prefix l) -> JS.startsWith k prefix = true.
Proof.
  unfold listObjects. intros H. apply In_firstn in H.
  apply in_map_iff in H as ([k' o] & <- & H).
  now apply filter_In in H as [_ H].
Qed.

Lemma deleteFile_other (key k : string) (r : R2) :
  k <> key -> getObject k (objects (snd (deleteFile key r))) = getObject k (objects r).
Proof.
  intros Hne. unfold deleteFile. destruct (JS.mem key (failDelete r)); cbn;
    [reflexivity | now apply getObject_removeObject_other].
Qed.

Lemma deleteFiles_other (k : string) (keys : list string) :
  (forall key, In key keys -> k <> key) ->
  forall r,
    getObject k (objects (fold_left (fun r key => snd (deleteFile key r)) keys r))
    = getObject k (objects r).
Proof.
  induction keys as [|key keys IH]; intros Hall r; cbn; [reflexivity|].
  rewrite IH by (intros; apply Hall; now right).
  apply deleteFile_other. apply Hall. now left.
Qed.

Lemma createBackup_outside (k folderPath ts : string) (r : R2) :
  JS.startsWith k "backups/" = false ->
  getObject k (objects (snd (R2ServiceObsidian.createBackup folderPath ts r)))
  = getObject k (objects r).
Proof.
  intros Hk. unfold R2ServiceObsidian.createBackup.
  destruct (JS.mem _ (failPut r)); cbn [snd objects]; [reflexivity|].
  apply getObject_putObject_other. intros ->.
  rewrite startsWith_app in Hk. discriminate.
Qed.

Lemma deleteBackup_outside (k ts : string) (r : R2) :
  JS.startsWith k "backups/" = false ->
  getObject k (objects (snd (R2ServiceObsidian.deleteBackup ts r)))
  = getObject k (objects r).
Proof.
  intros Hk. unfold R2ServiceObsidian.deleteBackup.
  destruct (JS.mem _ (failList r)); cbn [snd]; [reflexivity|].
  apply deleteFiles_other. intros key Hin ->.
  apply listObjects_prefix in Hin. apply startsWith_app_prefix in Hin.
  congruence.
Qed.

Lemma cleanup_loop_outside (k : string) (cutoff : Z) (backups : list Backup) :
  JS.startsWith k "backups/" = false ->
  forall acc : nat * R2,
    getObject k (objects (snd
      (fold_left
         (fun (acc : nat * R2) backup =>
            let '(deletedCount, r) := acc in
            if JSDate.lt (JSDate.parse (timestamp backup)) cutoff then
              (S deletedCount,
               snd (R2ServiceObsidian.deleteBackup (timestamp backup) r))
            else acc)
         backups acc)))
    = getObject k (objects (snd acc)).
Proof.
  intros Hk. induction backups as [|b backups IH]; intros [n r]; cbn [fold_left];
    [reflexivity|].
  rewrite IH. destruct (JSDate.lt _ _); cbn [snd]; [|reflexivity].
  now apply deleteBackup_outside.
Qed.

(** X10: the backup methods of the client only write and delete under
    [backups/]: an object whose key does not start with [backups/] is the
    same after [createBackup], after [deleteBackup] and after
    [cleanupOldBackups], whatever the timestamp, the folder path and the
    retention are. *)
Theorem backups_stay_under_prefix (k folderPath ts : string) (days now : Z)
  (r : R2) :
  JS.startsWith k "backups/" = false ->
  getObject k (objects (snd (R2ServiceObsidian.createBackup folderPath ts r)))
  = getObject k (objects r)
  /\ getObject k (objects (snd (R2ServiceObsidian.deleteBackup ts r)))
     = getObject k (objects r)
  /\ getObject k (objects (snd (R2ServiceObsidian.cleanupOldBackups days now r)))
     = getObject k (objects r).
Proof.
  intros Hk. split; [|split].
  - now apply createBackup_outside.
  - now apply deleteBackup_outside.
  - unfold R2ServiceObsidian.cleanupOldBackups.
    now rewrite cleanup_loop_outside.
Qed.

Lemma backups_stay_under_prefix_witness :
  let r := mkR2 [("MyVault/a.md", mkObject "hello" "text/markdown");
                 ("backups/2020-01-01T00:00:00.000Z/backup_marker",
                  mkObject (JSON.stringify_marker "2020-01-01T00:00:00.000Z"
                              "backup_marker") "application/json")]
                [] [] [] [] in
  getObject "MyVault/a.md"
    (objects (snd (R2ServiceObsidian.cleanupOldBackups 30 1793664000000 r)))
  = Some (mkObject "hello" "text/markdown").
Proof.
  intros r.
  destruct (backups_stay_under_prefix "MyVault/a.md" "root" "t" 30
              1793664000000 r eq_refl) as (_ & _ & H).
  exact H.
Defined.

(* ================================================================== *)
(** ** Debounce: which changes are synced *)









(* ================================================================== *)
(** ** The status bar *)

(** X15: the age the status bar shows for a last sync at [t], seen at
    [now]: nothing but [Just now] under a minute (and when the last sync is
    ahead of the clock), whole minutes from 1 to 59 under an hour, whole
    hours from 1 to 23 under a day, whole days from then on, each the
    number of full units that have passed. *)
Theorem timeAgo_units (t now : Z) :
  match timeAgo (Some t) now with
  | JustNow => (now - t < 60000)%Z
  | MinsAgo n => (1 <= n <= 59 /\ 60000 * n <= now - t < 60000 * (n + 1))%Z
  | HoursAgo n => (1 <= n <= 23 /\ 3600000 * n <= now - t < 3600000 * (n + 1))%Z
  | DaysAgo n => (1 <= n /\ 86400000 * n <= now - t < 86400000 * (n + 1))%Z
  end.
Proof.
  unfold timeAgo. set (d := (now - t)%Z).
  assert (Hh : (d / 60000 / 60 = d / 3600000)%Z)
    by (rewrite Z.div_div by lia; reflexivity).
  assert (Hd : (d / 60000 / 60 / 24 = d / 86400000)%Z)
    by (rewrite Hh, Z.div_div by lia; reflexivity).
  rewrite Hd, Hh.
  pose proof (Z.div_mod d 60000 ltac:(lia)) as M1.
  pose proof (Z.mod_pos_bound d 60000 ltac:(lia)) as M2.
  pose proof (Z.div_mod d 3600000 ltac:(lia)) as H1.
  pose proof (Z.mod_pos_bound d 3600000 ltac:(lia)) as H2.
  pose proof (Z.div_mod d 86400000 ltac:(lia)) as D1.
  pose proof (Z.mod_pos_bound d 86400000 ltac:(lia)) as D2.
  destruct (0 <? d / 86400000)%Z eqn:E1; [apply Z.ltb_lt in E1; lia|].
  apply Z.ltb_ge in E1.
  destruct (0 <? d / 3600000)%Z eqn:E2; [apply Z.ltb_lt in E2; lia|].
  apply Z.ltb_ge in E2.
  destruct (0 <? d / 60000)%Z eqn:E3; [apply Z.ltb_lt in E3; lia|].
  apply Z.ltb_ge in E3. lia.
Qed.

(** The text of the status bar: a pass in flight hides the last sync; with
    no last sync the bar says ready. *)
Lemma updateStatus_cases (now : Z) (s : SyncManager) :
  (syncInProgress s = true -> updateStatus now s = SyncInProgressText)
  /\ (syncInProgress s = false -> lastSync s = "" ->
      updateStatus now s = SyncReadyText).
Proof.
  unfold updateStatus, lastSync. split.
  - now intros ->.
  - now intros -> ->.
Qed.

(* ================================================================== *)
(** ** Local files change in the download phase only *)

Lemma vault_notice_blind : notice_blind vault.
Proof. intros s n. reflexivity. Qed.

Lemma vault_r2_blind : r2_blind vault.
Proof. intros s r. reflexivity. Qed.

Lemma keeps_vault_pass (body : M bool) (err : Notice) :
  keeps vault body -> keeps vault (pass body err).
Proof.
  pose proof vault_notice_blind as Hn.
  intros Hb. unfold pass. keeps_tac; try assumption;
    apply keeps_modify_state; reflexivity.
Qed.

(** X16: the operations that upload or delete never change the vault:
    after [syncFile], [syncMissingFiles], [deleteRemoteForFile],
    [createBackup], [cleanupOldBackups], and after [syncAllFiles] when the
    bidirectional sync is off, the local files and folders are what they
    were, however the call ends. *)
Theorem vault_untouched_by_uploads (now : string) (nowMs : Z)
  (folderPath : string) (file : TFile) (s : SyncManager) :
  vault (snd (syncFile now file s)) = vault s
  /\ vault (snd (syncMissingFiles now s)) = vault s
  /\ vault (snd (deleteRemoteForFile file s)) = vault s
  /\ vault (snd (createBackup now folderPath s)) = vault s
  /\ vault (snd (cleanupOldBackups nowMs s)) = vault s
  /\ (bidirectionalSync (settings s) = false ->
      vault (snd (syncAllFiles now s)) = vault s).
Proof.
  pose proof vault_notice_blind as Hn. pose proof vault_r2_blind as Hr.
  repeat split.
  - rewrite syncFile_pass. apply keeps_vault_pass.
    unfold syncFile_body, fileKey. keeps_tac;
      try (now apply keeps_r2_uploadFile);
      apply keeps_modify_state; reflexivity.
  - rewrite syncMissingFiles_pass. apply keeps_vault_pass.
    unfold syncMissingFiles_body. keeps_tac;
      try (now apply keeps_uploadMissing);
      apply keeps_modify_state; reflexivity.
  - revert s. change (keeps vault (deleteRemoteForFile file)).
    unfold deleteRemoteForFile, r2_deleteFile, fileKey. keeps_tac.
  - revert s. change (keeps vault (createBackup now folderPath)).
    unfold createBackup. keeps_tac.
  - revert s. change (keeps vault (cleanupOldBackups nowMs)).
    unfold cleanupOldBackups. keeps_tac.
  - intros Hb. rewrite syncAllFiles_pass.
    destruct (syncInProgress s) eqn:Hbusy;
      [now rewrite pass_rejected by (now left)|].
    destruct (r2Service s) as [r|] eqn:Hsv;
      [|now rewrite pass_rejected by (now right)].
    rewrite pass_run by congruence.
    assert (K : keeps vault
                  (files <- gets getFilesToSync ;;
                   notice (NBulkStart (List.length files)) ;;;
                   successCount <- for_of files 0 uploadOne ;;
                   set_lastSyncTime now ;;;
                   (if (successCount =? List.length files)%nat
                    then notice (NBulkAll (List.length files))
                    else notice (NBulkPartial successCount (List.length files))) ;;;
                   ret (0 <? successCount)%nat)).
    { keeps_tac; try (now apply keeps_uploadOne);
        apply keeps_modify_state; reflexivity. }
    unfold syncAllFiles_body. rewrite bind_eq, gets_eq.
    change (bidirectionalSync (settings (started s)))
      with (bidirectionalSync (settings s)).
    rewrite Hb, bind_eq, ret_eq.
    specialize (K (started s)).
    match goal with |- context [match ?m (started s) with _ => _ end] =>
      change (m (started s)) with
        ((files <- gets getFilesToSync ;;
          notice (NBulkStart (List.length files)) ;;;
          successCount <- for_of files 0 uploadOne ;;
          set_lastSyncTime now ;;;
          (if (successCount =? List.length files)%nat
           then notice (NBulkAll (List.length files))
           else notice (NBulkPartial successCount (List.length files))) ;;;
          ret (0 <? successCount)%nat) (started s))
    end.
    destruct ((files <- gets getFilesToSync ;; _) (started s)) as [[b|e] s'];
      cbn [snd] in K; exact K.
Qed.

Lemma vault_untouched_by_uploads_witness :
  let now := "2026-11-03T00:00:00.000Z" in
  let file := mkTFile "notes/a.md" "a.md" "md" in
  let s :=
    mkSyncManager (mkVault "MyVault" ".obsidian" [(file, "hello")] ["notes"] [])
                  (Some (mkR2 [] [] [] [] []))
                  (mkSettings "" false true 30 "" false) false [] in
  fst (syncAllFiles now s) = Normal true
  /\ vault (snd (syncFile now file s)) = vault s
  /\ vault (snd (syncMissingFiles now s)) = vault s
  /\ vault (snd (deleteRemoteForFile file s)) = vault s
  /\ vault (snd (createBackup now "notes" s)) = vault s
  /\ vault (snd (cleanupOldBackups 1793664000000 s)) = vault s
  /\ vault (snd (syncAllFiles now s)) = vault s.
Proof.
  intros now file s. split; [reflexivity|].
  destruct (vault_untouched_by_uploads now 1793664000000 "notes" file s)
    as (H1 & H2 & H3 & H4 & H5 & H6).
  split; [exact H1|]. split; [exact H2|]. split; [exact H3|].
  split; [exact H4|]. split; [exact H5|]. apply H6. reflexivity.
Defined.

(* ================================================================== *)
(** ** The marker of a backup is read back *)

Lemma readMembers_eq (fuel n : nat) (acc : list (string * JSON.Value))
  (s : string) :
  readMembers fuel (S n) acc s
  = match JSON.skipWs s with
    | String q r =>
        if Ascii.eqb q JSON.dquote then
          match JSON.readString r with
          | Some (k, r1) =>
              match JSON.skipWs r1 with
              | String ":" r2 =>
                  match JSON.readValue fuel r2 with
                  | Some (v, r3) =>
                      match JSON.skipWs r3 with
                      | String "," r4 =>
                          readMembers fuel n (acc ++ [(k, v)])%list r4
                      | String "}" r4 => Some ((acc ++ [(k, v)])%list, r4)
                      | _ => None
                      end
                  | None => None
                  end
              | _ => None
              end
          | None => None
          end
        else None
    | EmptyString => None
    end.
Proof. reflexivity. Qed.

Lemma append_nil_r (a : string) : (a ++ "")%string = a.
Proof. induction a as [|x a IH]; cbn; [reflexivity | now rewrite IH]. Qed.

Lemma escape_cons (c : ascii) (s : string) :
  JSON.escape (String c s) = JSON.escape (String c "") ++ JSON.escape s.
Proof. cbn [JSON.escape]. now rewrite append_nil_r. Qed.

Lemma readString_eq (c : ascii) (rest : string) :
  JSON.readString (String c rest)
  = let n := nat_of_ascii c in
    if (n =? 34)%nat then Some (EmptyString, rest)
    else if (n =? 92)%nat then
      match rest with
      | String e rest' =>
          let simple (x : string) :=
            match JSON.readString rest' with
            | Some (str, r) => Some (x ++ str, r)
            | None => None
            end in
          let m := nat_of_ascii e in
          if (m =? 34)%nat then simple (String e "")
          else if (m =? 92)%nat then simple (String e "")
          else if (m =? 47)%nat then simple (String e "")
          else if (m =? 98)%nat then simple (String (ascii_of_nat 8) "")
          else if (m =? 102)%nat then simple (String (ascii_of_nat 12) "")
          else if (m =? 110)%nat then simple (String (ascii_of_nat 10) "")
          else if (m =? 114)%nat then simple (String (ascii_of_nat 13) "")
          else if (m =? 116)%nat then simple (String (ascii_of_nat 9) "")
          else if (m =? 117)%nat then
            match rest' with
            | String h1 (String h2 (String h3 (String h4 rest''))) =>
                match JSON.hexValue h1, JSON.hexValue h2,
                      JSON.hexValue h3, JSON.hexValue h4 with
                | Some a, Some b, Some c', Some d =>
                    match JSON.readString rest'' with
                    | Some (str, r) =>
                        Some (JSON.utf8 (((a * 16 + b) * 16 + c') * 16 + d) ++ str, r)
                    | None => None
                    end
                | _, _, _, _ => None
                end
            | _ => None
            end
          else None
      | EmptyString => None
      end
    else if (n <? 32)%nat then None
    else match JSON.readString rest with
         | Some (str, r) => Some (String c str, r)
         | None => None
         end.
Proof. reflexivity. Qed.

Lemma readString_escape (s tail : string) :
  JSON.readString (JSON.escape s ++ String JSON.dquote tail) = Some (s, tail).
Proof.
  induction s as [|c s IH]; [reflexivity|].
  rewrite escape_cons, append_assoc.
  revert IH. generalize (JSON.escape s ++ String JSON.dquote tail). intros X IH.
  destruct c as [[] [] [] [] [] [] [] []];
    lazy -[JSON.readString]; rewrite readString_eq;
    lazy -[JSON.readString]; rewrite IH; reflexivity.
Qed.

Lemma skipWs_other (c : ascii) (r : string) :
  JSON.isWs c = false -> JSON.skipWs (String c r) = String c r.
Proof. intros H. cbn [JSON.skipWs]. now rewrite H. Qed.

Lemma readValue_string (f : nat) (r : string) :
  JSON.readValue (S f) (String JSON.dquote r)
  = match JSON.readString r with
    | Some (str, r') => Some (JSON.VString str, r')
    | None => None
    end.
Proof. reflexivity. Qed.

Lemma readValue_object (f : nat) (r : string) :
  JSON.readValue (S f) (String "{" r)
  = match JSON.skipWs r with
    | String "}" r' => Some (JSON.VObject [], r')
    | _ =>
        match readMembers f (String.length r) [] r with
        | Some (l, r') => Some (JSON.VObject l, r')
        | None => None
        end
    end.
Proof. reflexivity. Qed.

Lemma readMembers_step (f n : nat) (acc : list (string * JSON.Value))
  (k s rest : string) :
  readMembers (S f) (S n) acc
    (String JSON.dquote
       (JSON.escape k ++ String JSON.dquote
          (String ":" (String JSON.dquote
             (JSON.escape s ++ String JSON.dquote rest)))))
  = match JSON.skipWs rest with
    | String "," r4 =>
        readMembers (S f) n (acc ++ [(k, JSON.VString s)])%list r4
    | String "}" r4 => Some ((acc ++ [(k, JSON.VString s)])%list, r4)
    | _ => None
    end.
Proof.
  rewrite readMembers_eq.
  rewrite (skipWs_other JSON.dquote) by reflexivity.
  replace (Ascii.eqb JSON.dquote JSON.dquote) with true by reflexivity.
  rewrite readString_escape.
  rewrite (skipWs_other ":") by reflexivity.
  rewrite readValue_string, readString_escape. reflexivity.
Qed.

Lemma stringify_marker_eq (ts fp : string) :
  JSON.stringify_marker ts fp
  = String "{"
      (String JSON.dquote
         (JSON.escape "timestamp" ++ String JSON.dquote
            (String ":" (String JSON.dquote
               (JSON.escape ts ++ String JSON.dquote
      (String ","
      (String JSON.dquote
         (JSON.escape "folderPath" ++ String JSON.dquote
            (String ":" (String JSON.dquote
               (JSON.escape fp ++ String JSON.dquote
      (String ","
      (String JSON.dquote
         (JSON.escape "type" ++ String JSON.dquote
            (String ":" (String JSON.dquote
               (JSON.escape "backup_marker" ++ String JSON.dquote
      "}"))))))))))))))))).
Proof.
  unfold JSON.stringify_marker, JSON.quote.
  cbn [append]. rewrite !append_assoc. cbn [append]. reflexivity.
Qed.

Lemma parse_stringify_marker (ts fp : string) :
  JSON.parse (JSON.stringify_marker ts fp)
  = Some (JSON.VObject [("timestamp", JSON.VString ts);
                        ("folderPath", JSON.VString fp);
                        ("type", JSON.VString "backup_marker")]).
Proof.
  unfold JSON.parse. rewrite stringify_marker_eq.
  match goal with |- context [JSON.readValue (S (String.length ?t)) _] =>
    remember (String.length t) as fuel eqn:Hfuel
  end.
  cbn [String.length] in Hfuel.
  destruct fuel as [|[|f]]; [discriminate Hfuel | discriminate Hfuel |].
  clear Hfuel.
  rewrite readValue_object.
  rewrite (skipWs_other JSON.dquote) by reflexivity.
  replace (match JSON.dquote with "}"%char => true | _ => false end)
    with false by reflexivity.
  match goal with |- context [readMembers _ (String.length ?t) _ _] =>
    remember (String.length t) as n eqn:Hn
  end.
  cbn [String.length] in Hn. rewrite !length_append in Hn.
  cbn [String.length] in Hn. rewrite !length_append in Hn.
  cbn [String.length] in Hn.
  destruct n as [|[|[|n]]]; try (exfalso; lia). clear Hn.
  rewrite readMembers_step, (skipWs_other ",") by reflexivity.
  rewrite readMembers_step, (skipWs_other ",") by reflexivity.
  rewrite readMembers_step, (skipWs_other "}") by reflexivity.
  reflexivity.
Qed.

(** *** The marker is well-formed text *)

Lemma wellFormed_cons_ascii (c : ascii) (r : string) :
  (nat_of_ascii c <? 128)%nat = true -> wellFormed (String c r) = wellFormed r.
Proof. intros H. cbn [wellFormed]. cbv zeta. now rewrite H. Qed.

Lemma wellFormed_app (n : nat) :
  forall a, String.length a <= n -> wellFormed a = true ->
  forall b, wellFormed (a ++ b) = wellFormed b.
Proof.
  induction n as [|n IH]; intros a Hl Hw b.
  - destruct a; [reflexivity | cbn in Hl; lia].
  - destruct a as [|c rest]; [reflexivity|].
    cbn [append wellFormed] in *. cbn [String.length] in Hl. cbv zeta in *.
    destruct (nat_of_ascii c <? 128)%nat.
    { apply IH; assumption || lia. }
    destruct ((194 <=? nat_of_ascii c) && (nat_of_ascii c <=? 223))%nat.
    { destruct rest as [|c1 r1]; [discriminate|].
      apply andb_prop in Hw as [H1 Hw]. cbn [String.length] in Hl.
      cbn [append]. rewrite H1. cbn [andb]. apply IH; assumption || lia. }
    destruct ((224 <=? nat_of_ascii c) && (nat_of_ascii c <=? 239))%nat.
    { destruct rest as [|c1 [|c2 r2]]; try discriminate.
      apply andb_prop in Hw as [Hw H3]. apply andb_prop in Hw as [H1 H2].
      cbn [String.length] in Hl. cbn [append]. rewrite H1, H2. cbn [andb].
      apply IH; assumption || lia. }
    destruct ((240 <=? nat_of_ascii c) && (nat_of_ascii c <=? 244))%nat;
      [|discriminate].
    destruct rest as [|c1 [|c2 [|c3 r3]]]; try discriminate.
    apply andb_prop in Hw as [Hw H4]. apply andb_prop in Hw as [Hw H3].
    apply andb_prop in Hw as [H1 H2]. cbn [String.length] in Hl.
    cbn [append]. rewrite H1, H2, H3. cbn [andb]. apply IH; assumption || lia.
Qed.

(** [JSON.stringify] leaves the bytes outside ASCII as they are. *)
Lemma escape_high (c : ascii) (s : string) :
  128 <= nat_of_ascii c -> JSON.escape (String c s) = String c (JSON.escape s).
Proof.
  intros H. cbn [JSON.escape]. cbv zeta.
  repeat match goal with
         | |- context [(nat_of_ascii c =? ?k)%nat] =>
             destruct (Nat.eqb_spec (nat_of_ascii c) k); [lia|]
         end.
  destruct (Nat.ltb_spec (nat_of_ascii c) 32); [lia | reflexivity].
Qed.

Lemma inRange_high (lo hi : nat) (c : ascii) :
  TextDecoder.inRange lo hi c = true -> 128 <= lo -> 128 <= nat_of_ascii c.
Proof.
  unfold TextDecoder.inRange. intros H Hlo.
  apply andb_prop in H as [H _]. apply Nat.leb_le in H. lia.
Qed.

Lemma lowerAfter_high (n : nat) : 128 <= TextDecoder.lowerAfter n.
Proof.
  unfold TextDecoder.lowerAfter.
  destruct (n =? 224)%nat; [lia|]. destruct (n =? 240)%nat; lia.
Qed.

(** What [JSON.stringify] writes for an ASCII character is ASCII. *)
Lemma wellFormed_escape_ascii (c : ascii) :
  (nat_of_ascii c <? 128)%nat = true ->
  wellFormed (JSON.escape (String c EmptyString)) = true.
Proof.
  destruct c as [[] [] [] [] [] [] [] []]; intros H;
    solve [reflexivity | discriminate H].
Qed.

Lemma wellFormed_escape (n : nat) :
  forall s, String.length s <= n -> wellFormed s = true ->
  wellFormed (JSON.escape s) = true.
Proof.
  induction n as [|n IH]; intros s Hl Hw.
  - destruct s; [reflexivity | cbn in Hl; lia].
  - destruct s as [|c rest]; [reflexivity|].
    cbn [wellFormed] in Hw. cbn [String.length] in Hl. cbv zeta in Hw.
    destruct (nat_of_ascii c <? 128)%nat eqn:E0.
    { rewrite escape_cons.
      rewrite (wellFormed_app _ _ (le_n _) (wellFormed_escape_ascii c E0)).
      apply IH; assumption || lia. }
    apply Nat.ltb_ge in E0.
    rewrite (escape_high c rest E0). cbn [wellFormed]. cbv zeta.
    destruct (Nat.ltb_spec (nat_of_ascii c) 128) as [?|_]; [lia|].
    destruct ((194 <=? nat_of_ascii c) && (nat_of_ascii c <=? 223))%nat.
    { destruct rest as [|c1 r1]; [discriminate|].
      apply andb_prop in Hw as [H1 Hw]. cbn [String.length] in Hl.
      rewrite (escape_high c1 r1) by (apply (inRange_high _ _ _ H1); lia).
      rewrite H1. cbn [andb]. apply IH; assumption || lia. }
    destruct ((224 <=? nat_of_ascii c) && (nat_of_ascii c <=? 239))%nat.
    { destruct rest as [|c1 [|c2 r2]]; try discriminate.
      apply andb_prop in Hw as [Hw H3]. apply andb_prop in Hw as [H1 H2].
      cbn [String.length] in Hl.
      rewrite (escape_high c1 _)
        by (apply (inRange_high _ _ _ H1); apply lowerAfter_high).
      rewrite (escape_high c2 _) by (apply (inRange_high _ _ _ H2); lia).
      rewrite H1, H2. cbn [andb]. apply IH; assumption || lia. }
    destruct ((240 <=? nat_of_ascii c) && (nat_of_ascii c <=? 244))%nat;
      [|discriminate].
    destruct rest as [|c1 [|c2 [|c3 r3]]]; try discriminate.
    apply andb_prop in Hw as [Hw H4]. apply andb_prop in Hw as [Hw H3].
    apply andb_prop in Hw as [H1 H2]. cbn [String.length] in Hl.
    rewrite (escape_high c1 _)
      by (apply (inRange_high _ _ _ H1); apply lowerAfter_high).
    rewrite (escape_high c2 _) by (apply (inRange_high _ _ _ H2); lia).
    rewrite (escape_high c3 _) by (apply (inRange_high _ _ _ H3); lia).
    rewrite H1, H2, H3. cbn [andb]. apply IH; assumption || lia.
Qed.

Lemma wellFormed_escape_app (s tail : string) :
  wellFormed s = true ->
  wellFormed (JSON.escape s ++ tail) = wellFormed tail.
Proof.
  intros Hw. apply (wellFormed_app _ _ (le_n _)).
  now apply (wellFormed_escape _ _ (le_n _)).
Qed.

(** The marker of a well-formed timestamp and folder path is well-formed
    text with no byte order mark: it is decoded as it was written. *)
Lemma decode_stringify_marker (ts fp : string) :
  wellFormed ts = true -> wellFormed fp = true ->
  TextDecoder.decode (JSON.stringify_marker ts fp) = JSON.stringify_marker ts fp.
Proof.
  intros Hts Hfp.
  assert (Hb : TextDecoder.startsWithBOM (JSON.stringify_marker ts fp) = false)
    by reflexivity.
  rewrite decode_wellFormed; [now rewrite Hb|].
  rewrite stringify_marker_eq.
  repeat first
    [ rewrite wellFormed_cons_ascii by reflexivity
    | rewrite wellFormed_escape_app by (assumption || reflexivity) ].
  reflexivity.
Qed.

Lemma In_putObject (k : string) (o : R2Object) (l : list (string * R2Object)) :
  In (k, o) (putObject k o l).
Proof.
  induction l as [|[k' o'] l IH]; cbn; [now left|].
  destruct (String.compare k k'); cbn; auto.
Qed.

Lemma length_putObject (k : string) (o : R2Object)
  (l : list (string * R2Object)) :
  List.length (putObject k o l) <= S (List.length l).
Proof.
  induction l as [|[k' o'] l IH]; cbn; [lia|].
  destruct (String.compare k k'); cbn; lia.
Qed.

Lemma listObjects_all (prefix : string) (l : list (string * R2Object)) :
  List.length l <= MaxKeys ->
  listObjects prefix l
  = map fst (filter (fun ko => JS.startsWith (fst ko) prefix) l).
Proof.
  intros Hl. unfold listObjects. apply firstn_all2.
  rewrite length_map.
  pose proof (filter_length_le
                (fun ko : string * R2Object => JS.startsWith (fst ko) prefix) l).
  lia.
Qed.

(** The keys listed under [backups/] once [key] was put, when no key that
    was there is the key of a marker: the loop of [listBackups] reads the
    marker at [key] and nothing else. *)
Lemma markers_after_put (read : string -> list Backup) (key : string)
  (o : R2Object) (l : list (string * R2Object)) :
  JS.startsWith key "backups/" = true ->
  (forall k, JS.endsWith k "backup_marker" = false -> read k = []) ->
  (forall k, In k (map fst l) -> JS.endsWith k "backup_marker" = false) ->
  JS.endsWith key "backup_marker" = true ->
  flat_map read
    (map fst (filter (fun ko : string * R2Object => JS.startsWith (fst ko) "backups/")
                (putObject key o l)))
  = read key.
Proof.
  intros Hp Hread Hnone He.
  assert (Hskip : forall l',
            (forall k, In k (map fst l') ->
                       JS.endsWith k "backup_marker" = false) ->
            flat_map read
              (map fst (filter (fun ko : string * R2Object => JS.startsWith (fst ko) "backups/") l'))
            = []).
  { induction l' as [|[k' o'] l' IH]; intros H; [reflexivity|].
    cbn [filter fst].
    assert (Hrest : forall k, In k (map fst l') ->
                              JS.endsWith k "backup_marker" = false)
      by (intros k Hk; apply H; now right).
    destruct (JS.startsWith k' "backups/"); [|now apply IH].
    cbn [map flat_map fst]. rewrite (Hread k') by (apply H; now left).
    now apply IH. }
  induction l as [|[k' o'] l IH].
  - cbn [putObject filter fst]. rewrite Hp. cbn [map flat_map fst].
    now rewrite app_nil_r.
  - assert (Hrest : forall k, In k (map fst l) ->
                              JS.endsWith k "backup_marker" = false)
      by (intros k Hk; apply Hnone; now right).
    assert (Hk' : JS.endsWith k' "backup_marker" = false)
      by (apply Hnone; now left).
    cbn [putObject]. destruct (String.compare key k') eqn:E.
    + apply String.compare_eq_iff in E. subst k'. congruence.
    + cbn [filter fst]. rewrite Hp. cbn [map flat_map fst].
      change (if JS.startsWith k' "backups/"
              then (k', o') :: filter (fun ko : string * R2Object => JS.startsWith (fst ko) "backups/") l
              else filter (fun ko : string * R2Object => JS.startsWith (fst ko) "backups/") l)
        with (filter (fun ko : string * R2Object => JS.startsWith (fst ko) "backups/") ((k', o') :: l)).
      rewrite (Hskip ((k', o') :: l) Hnone). now rewrite app_nil_r.
    + cbn [filter fst].
      destruct (JS.startsWith k' "backups/"); [|now apply IH].
      cbn [map flat_map fst]. rewrite (Hread k' Hk'). now apply IH.
Qed.

(** X17: the marker [createBackup] writes is read back as it was written.
    For every timestamp and folder path that are well-formed text, when the
    requests are not rejected and the key
    [backups/<timestamp>/<folderPath>] ends with [backup_marker]: the body
    written is decoded as it was written and is a JSON document from which
    the loop of [listBackups] reads the entry with this timestamp and this
    folder path; and in a bucket of less than a page that held no key ending
    with [backup_marker], [listBackups] returns that entry and no other. *)
Theorem createBackup_marker_read_back (ts fp : string) (r : R2) :
  let key := "backups/" ++ ts ++ "/" ++ fp in
  wellFormed ts = true -> wellFormed fp = true ->
  JS.endsWith key "backup_marker" = true ->
  JS.mem key (failPut r) = false ->
  JS.mem key (failGet r) = false ->
  let r' := snd (R2ServiceObsidian.createBackup fp ts r) in
  fst (R2ServiceObsidian.createBackup fp ts r) = true
  /\ downloadFile key r' = Some (JSON.stringify_marker ts fp)
  /\ R2ServiceObsidian.readMarker r' key = [mkBackup ts fp]
  /\ (JS.mem "backups/" (failList r) = false ->
      List.length (objects r) < MaxKeys ->
      (forall k, In k (map fst (objects r)) ->
                 JS.endsWith k "backup_marker" = false) ->
      R2ServiceObsidian.listBackups r' = [mkBackup ts fp]).
Proof.
  intros key Hts Hfp He Hput Hget r'.
  assert (Hr' : r' = mkR2 (putObject key
                             (mkObject (JSON.stringify_marker ts fp)
                                       "application/json")
                             (objects r))
                          (failPut r) (failGet r) (failList r) (failDelete r)).
  { subst r'. unfold R2ServiceObsidian.createBackup. fold key.
    now rewrite Hput. }
  assert (Hd : downloadFile key r' = Some (JSON.stringify_marker ts fp)).
  { unfold downloadFile. rewrite Hr'. cbn [failGet objects]. rewrite Hget.
    rewrite getObject_putObject_same. cbn [body].
    now rewrite decode_stringify_marker. }
  assert (Hm : R2ServiceObsidian.readMarker r' key = [mkBackup ts fp]).
  { unfold R2ServiceObsidian.readMarker. rewrite He, Hd.
    replace (JS.truthy (JSON.stringify_marker ts fp)) with true
      by (now rewrite stringify_marker_eq).
    rewrite parse_stringify_marker. reflexivity. }
  split; [|split; [|split]].
  - unfold R2ServiceObsidian.createBackup. fold key. now rewrite Hput.
  - exact Hd.
  - exact Hm.
  - intros Hlist Hlen Hnone. unfold R2ServiceObsidian.listBackups.
    replace (failList r') with (failList r) by (now rewrite Hr').
    rewrite Hlist, listObjects_all.
    + rewrite Hr'. cbn [objects]. rewrite <- Hr'.
      rewrite markers_after_put.
      * now rewrite Hm.
      * apply (startsWith_app "backups/").
      * intros k Hk. unfold R2ServiceObsidian.readMarker. now rewrite Hk.
      * exact Hnone.
      * exact He.
    + rewrite Hr'. cbn [objects].
      pose proof (length_putObject key
                    (mkObject (JSON.stringify_marker ts fp) "application/json")
                    (objects r)). lia.
Qed.

Lemma createBackup_marker_read_back_witness :
  let ts := "2024-01-15T10:30:00.000Z" in
  let fp := "drafts\notes/backup_marker" in
  let key := "backups/2024-01-15T10:30:00.000Z/drafts\notes/backup_marker" in
  let r := mkR2 [("a.md", mkObject "hello" "text/markdown");
                 ("backups/2023-01-01T00-00-00-000Z/root",
                  mkObject (JSON.stringify_marker "2023-01-01T00-00-00-000Z" "root")
                           "application/json")] [] [] [] [] in
  let r' := snd (R2ServiceObsidian.createBackup fp ts r) in
  fst (R2ServiceObsidian.createBackup fp ts r) = true
  /\ downloadFile key r' = Some (JSON.stringify_marker ts fp)
  /\ R2ServiceObsidian.readMarker r' key = [mkBackup ts fp]
  /\ R2ServiceObsidian.listBackups r' = [mkBackup ts fp].
Proof.
  intros ts fp key r.
  destruct (createBackup_marker_read_back ts fp r)
    as (H1 & H2 & H3 & H4); try reflexivity.
  split; [exact H1|]. split; [exact H2|]. split; [exact H3|].
  apply H4.
  - reflexivity.
  - unfold MaxKeys. cbn. lia.
  - intros k [<-|[<-|[]]]; reflexivity.
Defined.

(* ================================================================== *)
(** ** The download loop: a file that is not in the vault yet *)

Lemma split_cons (sep : ascii) (s : string) :
  exists h t, JS.split sep s = h :: t.
Proof.
  destruct s as [|c s]; cbn; [now eexists; eexists|].
  destruct (Ascii.eqb c sep); [now eexists; eexists|].
  destruct (JS.split sep s); now eexists; eexists.
Qed.

Lemma dirname_single (p : string) :
  List.length (JS.split "/" p) <= 1 -> dirname p = "".
Proof.
  unfold dirname. destruct (split_cons "/" p) as (h & t & ->).
  destruct t; cbn; [reflexivity | lia].
Qed.

Lemma mem_folder (v : Vault) (p : string) :
  JS.mem p (folders v) = true -> getAbstractFileByPath v p <> None.
Proof.
  unfold getAbstractFileByPath. intros ->.
  now destruct (lookupFile p (files v)) as [[f c]|].
Qed.

(** X18: a remote key outside [backups/] whose content was fetched and is
    not empty, mapped to a path where the vault has nothing, in the root
    of the vault or in a folder that exists: one turn of the download loop
    creates the local file with exactly the remote content, after the files
    that were there, counts it as downloaded, and changes neither the
    folders nor the bucket. *)
Theorem downloadRemoteKey_new (remoteKey remoteContent : string)
  (counts : nat * nat) (s : SyncManager) (r : R2) :
  let localPath :=
    getLocalPathFromKey (vaultName (vault s)) (baseFolder (settings s)) remoteKey in
  JS.startsWith remoteKey "backups/" = false ->
  r2Service s = Some r ->
  downloadFile remoteKey r = Some remoteContent ->
  remoteContent <> "" ->
  getAbstractFileByPath (vault s) localPath = None ->
  List.length (JS.split "/" localPath) <= 1
  \/ JS.mem (dirname localPath) (folders (vault s)) = true ->
  exists s',
    downloadRemoteKey remoteKey counts s
    = (Normal (S (fst counts), snd counts), s')
    /\ files (vault s')
       = (files (vault s)
          ++ [(mkTFile localPath (basename localPath) (extname localPath),
               remoteContent)])%list
    /\ folders (vault s') = folders (vault s)
    /\ r2Service s' = r2Service s.
Proof.
  intros localPath Hb Hr Hd Hne Hf Hdir.
  unfold downloadRemoteKey. destruct counts as [d u]. rewrite Hb.
  unfold localPathFromKey. rewrite bind_eq, gets_eq. fold localPath.
  rewrite bind_eq, gets_eq, Hf, bind_eq.
  unfold r2_downloadFile, with_r2. rewrite Hr, ret_eq, Hd.
  rewrite (truthy_true _ Hne), bind_eq.
  assert (Hfolder :
    (if (1 <? List.length (JS.split "/" localPath))%nat
     then
       dir <- gets (fun s0 => getAbstractFileByPath (vault s0)
                                (JS.join "/" (removelast (JS.split "/" localPath)))) ;;
       match dir with
       | None => vault_createFolder
                   (JS.join "/" (removelast (JS.split "/" localPath)))
       | Some _ => ret tt
       end
     else ret tt) s = (Normal tt, s)).
  { destruct (1 <? List.length (JS.split "/" localPath))%nat eqn:E;
      [|reflexivity].
    apply Nat.ltb_lt in E. destruct Hdir as [Hdir|Hdir]; [lia|].
    rewrite bind_eq, gets_eq. fold (dirname localPath).
    pose proof (mem_folder _ _ Hdir) as Hsome.
    now destruct (getAbstractFileByPath (vault s) (dirname localPath)). }
  rewrite Hfolder, bind_eq.
  assert (Hcreate : JS.truthy (dirname localPath)
                    && negb (JS.mem (dirname localPath) (folders (vault s)))
                    = false).
  { destruct Hdir as [Hdir|Hdir].
    - now rewrite (dirname_single _ Hdir).
    - rewrite Hdir. apply andb_false_r. }
  unfold vault_create. rewrite Hf, Hcreate.
  eexists. split; [reflexivity|]. cbn. split; [reflexivity|].
  split; [reflexivity | congruence].
Qed.

Lemma downloadRemoteKey_new_witness :
  let r := mkR2 [("MyVault/notes/y.md", mkObject "new" "text/markdown")]
                [] [] [] [] in
  let s :=
    mkSyncManager (mkVault "MyVault" ".obsidian"
                     [(mkTFile "x.md" "x.md" "md", "hello")] ["notes"] [])
                  (Some r) (mkSettings "" true false 30 "" false) false [] in
  exists s',
    downloadRemoteKey "MyVault/notes/y.md" (0, 0) s = (Normal (1, 0), s')
    /\ files (vault s')
       = [(mkTFile "x.md" "x.md" "md", "hello");
          (mkTFile "notes/y.md" "y.md" "md", "new")]
    /\ folders (vault s') = ["notes"]
    /\ r2Service s' = Some r.
Proof.
  intros r s.
  apply (downloadRemoteKey_new "MyVault/notes/y.md" "new" (0, 0) s r);
    try reflexivity.
  - discriminate.
  - right. reflexivity.
Defined.

(* ================================================================== *)
(** ** [syncMissingFiles]: what counts as missing *)

Lemma for_of_unchanged {A S : Type} (l : list A) (step : A -> S -> M S)
  (st : SyncManager) :
  (forall x, In x l -> forall acc, step x acc st = (Normal acc, st)) ->
  forall acc, for_of l acc step st = (Normal acc, st).
Proof.
  induction l as [|x l IH]; intros H acc; cbn [for_of]; [reflexivity|].
  rewrite bind_eq, (H x (or_introl eq_refl)).
  apply IH. intros y Hy. apply H. now right.
Qed.

Lemma mem_false (x : string) (l : list string) :
  ~ In x l -> JS.mem x l = false.
Proof.
  intros H. unfold JS.mem. destruct (existsb (String.eqb x) l) eqn:E;
    [|reflexivity].
  apply existsb_exists in E as (y & Hy & Heq).
  apply String.eqb_eq in Heq. subst y. contradiction.
Qed.

(** X19: when the listing under the base folder holds the key of every
    file there is to sync, a call of [syncMissingFiles] that the guard lets
    through reads no file and uploads nothing: it returns [false], the
    bucket and the vault are what they were, one notice says that nothing
    is new, and [lastSyncTime] is set all the same. *)
Theorem syncMissingFiles_nothing_missing (now : string) (s : SyncManager)
  (r : R2) :
  let b := JS.or (baseFolder (settings s)) (vaultName (vault s)) in
  syncInProgress s = false ->
  r2Service s = Some r ->
  (forall f, In f (getFilesToSync s) ->
     In (getFileKey (vaultName (vault s)) (baseFolder (settings s)) f)
        (listFiles b r)) ->
  syncMissingFiles now s
  = (Normal false,
     mkSyncManager (vault s) (Some r)
       (mkSettings (baseFolder (settings s)) (bidirectionalSync (settings s))
          (enableBackups (settings s)) (backupRetentionDays (settings s))
          now false)
       false (notices s ++ [NMissingNone])).
Proof.
  intros b Hb Hr Hall.
  rewrite syncMissingFiles_pass, pass_run by congruence.
  unfold syncMissingFiles_body.
  rewrite bind_eq, gets_eq, bind_eq, gets_eq, bind_eq.
  unfold r2_listFiles, with_r2.
  change (r2Service (started s)) with (r2Service s). rewrite Hr, ret_eq.
  change (JS.or (baseFolder (settings (started s)))
                (vaultName (vault (started s)))) with b.
  change (getFilesToSync (started s)) with (getFilesToSync s).
  rewrite bind_eq, for_of_unchanged.
  - cbn. now rewrite Hr.
  - intros f Hf acc. unfold uploadMissing.
    rewrite bind_eq, fileKey_eq.
    change (getFileKey (vaultName (vault (started s)))
              (baseFolder (settings (started s))) f)
      with (getFileKey (vaultName (vault s)) (baseFolder (settings s)) f).
    now rewrite (mem_In _ _ (Hall f Hf)).
Qed.

Lemma syncMissingFiles_nothing_missing_witness :
  let r := mkR2 [("MyVault/a.md", mkObject "remote" "text/markdown");
                 ("MyVault/notes/b.md", mkObject "b" "text/markdown")]
                [] [] [] [] in
  let v := mkVault "MyVault" ".obsidian"
             [(mkTFile "a.md" "a.md" "md", "local");
              (mkTFile "notes/b.md" "b.md" "md", "b");
              (mkTFile ".obsidian/app.json" "app.json" "json", "{}")]
             ["notes"; ".obsidian"] [] in
  let s := mkSyncManager v (Some r) (mkSettings "" true false 30 "" false)
             false [] in
  syncMissingFiles "2026-11-03T00:00:00.000Z" s
  = (Normal false,
     mkSyncManager v (Some r)
       (mkSettings "" true false 30 "2026-11-03T00:00:00.000Z" false)
       false [NMissingNone]).
Proof.
  intros r v s.
  apply (syncMissingFiles_nothing_missing "2026-11-03T00:00:00.000Z" s r);
    try reflexivity.
  intros f [<-|[<-|[]]]; cbn; auto.
Defined.

(** X20: a file under the base folder [b] has the path relative to [b] as
    its key, and the listing of [syncMissingFiles] asks for the keys that
    start with [b]: when the key does not start with [b] it is not in the
    listing, whatever the bucket holds, and the turn of the loop reads the
    file and uploads it under that key. *)
Theorem uploadMissing_under_baseFolder (file f : TFile) (c : string)
  (uploaded : nat) (s : SyncManager) (r : R2) :
  let b := JS.or (baseFolder (settings s)) (vaultName (vault s)) in
  let key := getFileKey (vaultName (vault s)) (baseFolder (settings s)) file in
  b <> "" ->
  JS.startsWith (path file) (b ++ "/") = true ->
  JS.startsWith key b = false ->
  r2Service s = Some r ->
  JS.mem (path file) (unreadable (vault s)) = false ->
  lookupFile (path file) (files (vault s)) = Some (f, c) ->
  JS.mem key (failPut r) = false ->
  path file = b ++ "/" ++ key
  /\ JS.mem key (listFiles b r) = false
  /\ exists ctype,
       uploadMissing (listFiles b r) file uploaded s
       = (Normal (S uploaded),
          mkSyncManager (vault s)
            (Some (mkR2 (putObject key (mkObject c ctype) (objects r))
                        (failPut r) (failGet r) (failList r) (failDelete r)))
            (settings s) (syncInProgress s) (notices s)).
Proof.
  intros b key Hb Hunder Hkey Hr Hu Hl Hp.
  assert (Hmem : JS.mem key (listFiles b r) = false).
  { apply mem_false. unfold listFiles.
    destruct (JS.mem b (failList r)); [intros []|].
    intros Hin. apply listObjects_prefix in Hin. congruence. }
  split; [now apply getFileKey_under | split; [exact Hmem|]].
  destruct (readFileContentWithType_content file f c s Hu Hl) as [ctype Hc].
  exists ctype. unfold uploadMissing.
  rewrite bind_eq, fileKey_eq. fold key. rewrite Hmem. cbn [negb].
  rewrite bind_eq, Hc, bind_eq. cbn [fst snd].
  unfold r2_uploadFile, with_r2. rewrite Hr.
  unfold uploadFile. rewrite Hp. reflexivity.
Qed.

Lemma uploadMissing_under_baseFolder_witness :
  let file := mkTFile "Notes/a.md" "a.md" "md" in
  let r := mkR2 [("a.md", mkObject "hello" "text/markdown")] [] [] [] [] in
  let s :=
    mkSyncManager (mkVault "MyVault" ".obsidian" [(file, "hello")] ["Notes"] [])
                  (Some r) (mkSettings "Notes" true false 30 "" false) false [] in
  "Notes/a.md" = "Notes" ++ "/" ++ "a.md"
  /\ JS.mem "a.md" (listFiles "Notes" r) = false
  /\ exists ctype,
       uploadMissing (listFiles "Notes" r) file 0 s
       = (Normal 1,
          mkSyncManager (vault s)
            (Some (mkR2 (putObject "a.md" (mkObject "hello" ctype) (objects r))
                        [] [] [] []))
            (settings s) false []).
Proof.
  intros file r s.
  apply (uploadMissing_under_baseFolder file file "hello" 0 s r);
    try reflexivity.
  discriminate.
Defined.
